(** * project-manager: the project store, its validation helper and its views

    A shallow embedding of the TypeScript sources (the single-file [app.ts]
    and [components/project-list.ts]) and the properties of the store, of
    [validate] and of the two ProjectList views that are proved about it.

    Layout: the JavaScript built-ins the code calls ([String.prototype.trim],
    unary [+] on a string, [Number.prototype.toString], the comparisons of
    numbers) come first, then the data model and the heap of arrays and
    objects, then the operations of the sources, then the theorems. *)

From Stdlib Require Import ZArith NArith List Bool Lia SpecFloat.
From Stdlib Require Import Ascii String.
From stdpp Require Import base option list gmap fin_maps.

(** ** JavaScript strings

    A string is its sequence of UTF-16 code units; [length] is the [.length]
    of the source. *)

Definition jsstring := list N.

(** A literal of the source, written in ASCII. *)
Definition str (s : string) : jsstring :=
  List.map N_of_ascii (list_ascii_of_string s).

(** WhiteSpace and LineTerminator code points of ECMAScript, the characters
    [trim] removes and the ones skipped around a numeric literal. *)
Definition is_ws (c : N) : bool :=
  ((9 <=? c) && (c <=? 13) || (c =? 32) || (c =? 160) || (c =? 5760)
   || (8192 <=? c) && (c <=? 8202) || (c =? 8232) || (c =? 8233)
   || (c =? 8239) || (c =? 8287) || (c =? 12288) || (c =? 65279))%N.

Fixpoint trimStart (s : jsstring) : jsstring :=
  match s with
  | c :: t => if is_ws c then trimStart t else s
  | [] => []
  end.

Definition trimEnd (s : jsstring) : jsstring := rev (trimStart (rev s)).

Definition trim (s : jsstring) : jsstring := trimEnd (trimStart s).

(** ** JavaScript numbers

    A number is an IEEE 754 binary64 value, here the [spec_float] of the
    Standard Library at precision 53 and maximal exponent 1024. *)

Definition number := spec_float.

Module Num.

Local Open Scope Z_scope.

Definition prec : Z := 53.
Definition emax : Z := 1024.

(** [a >= b] and [a <= b] of the source: false as soon as one side is NaN. *)
Definition le (a b : number) : bool := SFleb a b.
Definition ge (a b : number) : bool := SFleb b a.
Definition lt (a b : number) : bool := SFltb a b.
Definition eqb (a b : number) : bool := SFeqb a b.

(** The number nearest to [n / d] (ties to even), with sign [neg]. *)
Definition of_ratio (neg : bool) (n d : positive) : number :=
  let '(m, e, l) := SFdiv_core_binary prec emax (Zpos n) 0 (Zpos d) 0 in
  binary_round_aux prec emax neg m e l.

(** The number nearest to [m * 10 ^ e10], with sign [neg]. *)
Definition of_decimal (neg : bool) (m : N) (e10 : Z) : number :=
  match m with
  | N0 => S754_zero neg
  | Npos p =>
      if 0 <=? e10 then of_ratio neg (p * Z.to_pos (10 ^ e10)) 1
      else of_ratio neg p (Z.to_pos (10 ^ (- e10)))
  end.

Definition of_N (n : N) : number := of_decimal false n 0.
Definition of_nat (n : nat) : number := of_N (N.of_nat n).

(** Whether a number is a mathematical integer ([Number.isInteger]). *)
Definition is_integer (x : number) : bool :=
  match x with
  | S754_zero _ => true
  | S754_finite _ m e =>
      if 0 <=? e then true else Zpos m mod 2 ^ (- e) =? 0
  | _ => false
  end.

(** *** Unary plus on a string: StringToNumber *)

Definition is_digit (c : N) : bool := ((48 <=? c) && (c <=? 57))%N.

(** Value of a digit of a literal in radix up to 16, if it is one. *)
Definition digit_value (c : N) : option N :=
  if is_digit c then Some (c - 48)%N
  else if ((97 <=? c) && (c <=? 102))%N then Some (c - 87)%N
  else if ((65 <=? c) && (c <=? 70))%N then Some (c - 55)%N
  else None.

Fixpoint radix_value (radix : N) (acc : N) (s : jsstring) : option N :=
  match s with
  | [] => Some acc
  | c :: t =>
      match digit_value c with
      | Some d => if (d <? radix)%N then radix_value radix (radix * acc + d)%N t
                  else None
      | None => None
      end
  end.

Fixpoint span_digits (s : jsstring) : jsstring * jsstring :=
  match s with
  | c :: t => if is_digit c then let (ds, r) := span_digits t in (c :: ds, r)
              else ([], s)
  | [] => ([], [])
  end.

Definition decimal_value (ds : jsstring) : N :=
  List.fold_left (fun acc c => (10 * acc + (c - 48))%N) ds 0%N.

(** 0x, 0o and 0b literals: no sign, at least one digit. *)
Definition non_decimal (s : jsstring) : option number :=
  match s with
  | 48%N :: p :: ((_ :: _) as ds) =>
      let radix :=
        if ((p =? 120) || (p =? 88))%N then Some 16%N
        else if ((p =? 111) || (p =? 79))%N then Some 8%N
        else if ((p =? 98) || (p =? 66))%N then Some 2%N
        else None in
      match radix with
      | Some r => Some (match radix_value r 0 ds with
                        | Some v => of_N v
                        | None => S754_nan
                        end)
      | None => None
      end
  | _ => None
  end.

(** StrUnsignedDecimalLiteral, with the sign already read. *)
Definition unsigned_decimal (neg : bool) (s : jsstring) : number :=
  if decide (s = str "Infinity") then S754_infinity neg
  else
    let (ip, r1) := span_digits s in
    let (fp, r2) := match r1 with
                    | 46%N :: t => span_digits t
                    | _ => ([], r1)
                    end in
    match ip ++ fp with
    | [] => S754_nan
    | ds =>
        let m := decimal_value ds in
        let shift := Z.of_nat (length fp) in
        match r2 with
        | [] => of_decimal neg m (- shift)
        | c :: t =>
            if ((c =? 101) || (c =? 69))%N then
              let (eneg, et) := match t with
                                | 43%N :: u => (false, u)
                                | 45%N :: u => (true, u)
                                | _ => (false, t)
                                end in
              match span_digits et with
              | ((_ :: _) as es, []) =>
                  let e := Z.of_N (decimal_value es) in
                  of_decimal neg m ((if eneg then - e else e) - shift)
              | _ => S754_nan
              end
            else S754_nan
        end
    end.

(** [+s] for a string [s]. *)
Definition of_string (s : jsstring) : number :=
  match trim s with
  | [] => S754_zero false
  | t =>
      match non_decimal t with
      | Some x => x
      | None =>
          match t with
          | 43%N :: u => unsigned_decimal false u
          | 45%N :: u => unsigned_decimal true u
          | _ => unsigned_decimal false t
          end
      end
  end.

(** *** Number.prototype.toString (radix 10) *)

Fixpoint digits_aux (fuel : nat) (n : N) (acc : jsstring) : jsstring :=
  let acc' := (48 + n mod 10)%N :: acc in
  match fuel with
  | O => acc'
  | S fuel' => if (n / 10 =? 0)%N then acc' else digits_aux fuel' (n / 10)%N acc'
  end.

(** The decimal digits of [n], most significant first. *)
Definition digits (n : N) : jsstring :=
  digits_aux (N.to_nat (N.log2 n)) n [].

(** A positive finite value [m * 2 ^ e] as a fraction. *)
Definition fraction (m : positive) (e : Z) : Z * Z :=
  if 0 <=? e then (Zpos m * 2 ^ e, 1) else (Zpos m, 2 ^ (- e)).

(** [num / den * 10 ^ p] as a fraction. *)
Definition scale10 (v : Z * Z) (p : Z) : Z * Z :=
  let (num, den) := v in
  if 0 <=? p then (num * 10 ^ p, den) else (num, den * 10 ^ (- p)).

(** The least [n], from [n0] upwards, with [v < 10 ^ n]. *)
Fixpoint magnitude (fuel : nat) (v : Z * Z) (n0 : Z) : Z :=
  match fuel with
  | O => n0
  | S fuel' =>
      let (num, den) := scale10 v (- n0) in
      if num <? den then n0 else magnitude fuel' v (n0 + 1)
  end.

(** The [k]-digit integer [s] with [s * 10 ^ (n - k)] nearest to [v] among
    those that denote the number [x], if there is one. *)
Definition shortest_at (x : number) (v : Z * Z) (n k : Z) : option Z :=
  let (num, den) := scale10 v (k - n) in
  let lo := num / den in
  let hi := lo + 1 in
  let denotes c := eqb (of_decimal false (Z.to_N c) (n - k)) x in
  match denotes lo, denotes hi with
  | true, true =>
      match 2 * num ?= (lo + hi) * den with
      | Lt => Some lo
      | Gt => Some hi
      | Eq => Some (if Z.even lo then lo else hi)
      end
  | true, false => Some lo
  | false, true => Some hi
  | false, false => None
  end.

(** The least [k] from [k] upwards (at most [fuel] more) for which a
    [k]-digit [s] exists, with that [s]. *)
Fixpoint shortest (fuel : nat) (x : number) (v : Z * Z) (n k : Z) : Z * Z :=
  match fuel with
  | O => (k, fst (scale10 v (k - n)) / snd (scale10 v (k - n)))
  | S fuel' =>
      match shortest_at x v n k with
      | Some s => (k, s)
      | None => shortest fuel' x v n (k + 1)
      end
  end.

Definition zeros (n : Z) : jsstring := repeat 48%N (Z.to_nat n).

(** Steps 6 to 10 of Number::toString: the digits [ds] of [s] and the
    position [n] of the decimal point. *)
Definition layout (ds : jsstring) (n : Z) : jsstring :=
  let k := Z.of_nat (length ds) in
  if (k <=? n) && (n <=? 21) then ds ++ zeros (n - k)
  else if (0 <? n) && (n <=? 21) then
    take (Z.to_nat n) ds ++ 46%N :: drop (Z.to_nat n) ds
  else if (-6 <? n) && (n <=? 0) then
    48%N :: 46%N :: zeros (- n) ++ ds
  else
    let e := n - 1 in
    let exponent :=
      101%N :: (if e <? 0 then 45%N else 43%N) :: digits (Z.to_N (Z.abs e)) in
    match ds with
    | [d] => d :: exponent
    | d :: rest => d :: 46%N :: rest ++ exponent
    | [] => exponent
    end.

Definition positive_to_string (m : positive) (e : Z) : jsstring :=
  let x := S754_finite false m e in
  let v := fraction m e in
  let n := magnitude 640 v (-324) in
  let (k, s) := shortest 17 x v n 1 in
  if s =? 10 ^ k then layout (digits (Z.to_N (10 ^ (k - 1)))) (n + 1)
  else layout (digits (Z.to_N s)) n.

(** [x.toString()] for a number [x]. *)
Definition to_string (x : number) : jsstring :=
  match x with
  | S754_nan => str "NaN"
  | S754_zero _ => str "0"
  | S754_infinity false => str "Infinity"
  | S754_infinity true => str "-Infinity"
  | S754_finite false m e => positive_to_string m e
  | S754_finite true m e => 45%N :: positive_to_string m e
  end.

End Num.

(** ** Data model *)

(** [enum ProjectStatus { Active, Finished }] *)
Inductive ProjectStatus := Active | Finished.

#[global] Instance ProjectStatus_eq_dec : EqDecision ProjectStatus.
Proof. solve_decision. Defined.

(** [class Project] *)
Record Project := mkProject {
  id : jsstring;
  title : jsstring;
  description : jsstring;
  people : number;
  status : ProjectStatus
}.

(** The [type] of a ProjectList: ["active" | "finished"]. *)
Inductive ListType := active | finished.

#[global] Instance ListType_eq_dec : EqDecision ListType.
Proof. solve_decision. Defined.

(** ** The heap

    Project instances and Project[] arrays are objects: a variable or a
    field holds a reference, and two references to one object see each
    other's writes. *)

Definition loc := positive.

(** [type Listener<T> = (items: T[]) => void], for [T = Project].

    [ListListener type] is the arrow function registered by
    [ProjectList.configure], with [this] the list of that type.
    [Subscriber edit] is any other function passed to [addListener] that
    works on the array it is called with and does not call back into the
    store or write to a Project: [edit objs items] is the content it leaves
    in that array (after any push, pop, splice, sort, reverse, ...) when it
    received [items] and the Project instances were [objs]. *)
Inductive Listener :=
  | ListListener (type : ListType)
  | Subscriber (edit : gmap loc Project -> list loc -> list loc).

(** One invocation of a listener: the function, the array it was given and
    the content of that array at the time of the call. *)
Record Call := mkCall {
  callee : Listener;
  argument : loc;
  received : list loc
}.

(** The state of a ProjectList instance: its [assignedProjects], and the
    text of the [li] rows of its [ul] element. [assignedProjects] is only
    ever replaced as a whole by a new array that is handed to nobody, so it
    is kept by value. *)
Record ProjectList := mkProjectList {
  assignedProjects : list loc;
  rows : list jsstring
}.

Record World := mkWorld {
  (** the heap *)
  objects : gmap loc Project;
  arrays : gmap loc (list loc);
  (** [projectState]: the fields of the singleton *)
  projects : loc;
  listeners : list Listener;
  (** [projectInput]: the [value] of its three input elements *)
  titleInputElement : jsstring;
  descriptionInputElement : jsstring;
  peopleInputElement : jsstring;
  (** the two lists *)
  activeProjectLists : ProjectList;
  finishedProjectLists : ProjectList;
  (** the window: alerts shown, console lines, and the values that
      [Math.random()] returns, of which [drawn] have been used *)
  alerts : list jsstring;
  console : list (jsstring * jsstring * number);
  random : nat -> number;
  drawn : nat;
  (** every invocation of a listener so far, oldest first *)
  calls : list Call
}.

Definition set_objects (f : gmap loc Project -> gmap loc Project) (w : World) : World :=
  mkWorld (f (objects w)) (arrays w) (projects w) (listeners w)
    (titleInputElement w) (descriptionInputElement w) (peopleInputElement w)
    (activeProjectLists w) (finishedProjectLists w)
    (alerts w) (console w) (random w) (drawn w) (calls w).

Definition set_arrays (f : gmap loc (list loc) -> gmap loc (list loc)) (w : World) : World :=
  mkWorld (objects w) (f (arrays w)) (projects w) (listeners w)
    (titleInputElement w) (descriptionInputElement w) (peopleInputElement w)
    (activeProjectLists w) (finishedProjectLists w)
    (alerts w) (console w) (random w) (drawn w) (calls w).

Definition set_listeners (f : list Listener -> list Listener) (w : World) : World :=
  mkWorld (objects w) (arrays w) (projects w) (f (listeners w))
    (titleInputElement w) (descriptionInputElement w) (peopleInputElement w)
    (activeProjectLists w) (finishedProjectLists w)
    (alerts w) (console w) (random w) (drawn w) (calls w).

Definition set_inputs (t d p : jsstring) (w : World) : World :=
  mkWorld (objects w) (arrays w) (projects w) (listeners w)
    t d p
    (activeProjectLists w) (finishedProjectLists w)
    (alerts w) (console w) (random w) (drawn w) (calls w).

Definition set_list (type : ListType) (f : ProjectList -> ProjectList) (w : World) : World :=
  mkWorld (objects w) (arrays w) (projects w) (listeners w)
    (titleInputElement w) (descriptionInputElement w) (peopleInputElement w)
    (match type with active => f (activeProjectLists w) | finished => activeProjectLists w end)
    (match type with active => finishedProjectLists w | finished => f (finishedProjectLists w) end)
    (alerts w) (console w) (random w) (drawn w) (calls w).

Definition set_alerts (f : list jsstring -> list jsstring) (w : World) : World :=
  mkWorld (objects w) (arrays w) (projects w) (listeners w)
    (titleInputElement w) (descriptionInputElement w) (peopleInputElement w)
    (activeProjectLists w) (finishedProjectLists w)
    (f (alerts w)) (console w) (random w) (drawn w) (calls w).

Definition set_console
    (f : list (jsstring * jsstring * number) -> list (jsstring * jsstring * number))
    (w : World) : World :=
  mkWorld (objects w) (arrays w) (projects w) (listeners w)
    (titleInputElement w) (descriptionInputElement w) (peopleInputElement w)
    (activeProjectLists w) (finishedProjectLists w)
    (alerts w) (f (console w)) (random w) (drawn w) (calls w).

Definition set_drawn (f : nat -> nat) (w : World) : World :=
  mkWorld (objects w) (arrays w) (projects w) (listeners w)
    (titleInputElement w) (descriptionInputElement w) (peopleInputElement w)
    (activeProjectLists w) (finishedProjectLists w)
    (alerts w) (console w) (random w) (f (drawn w)) (calls w).

Definition set_calls (f : list Call -> list Call) (w : World) : World :=
  mkWorld (objects w) (arrays w) (projects w) (listeners w)
    (titleInputElement w) (descriptionInputElement w) (peopleInputElement w)
    (activeProjectLists w) (finishedProjectLists w)
    (alerts w) (console w) (random w) (drawn w) (f (calls w)).

(** The ProjectList instance of a type. *)
Definition list_of (type : ListType) (w : World) : ProjectList :=
  match type with
  | active => activeProjectLists w
  | finished => finishedProjectLists w
  end.

(** ** Computations

    A method takes the world to a result and a new world, or throws (a
    TypeError on a reference to no object): [None]. *)

Definition M (A : Type) : Type := World -> option (A * World).

Definition ret {A} (a : A) : M A := fun w => Some (a, w).

Definition bind {A B} (m : M A) (k : A -> M B) : M B :=
  fun w => match m w with
           | Some (a, w') => k a w'
           | None => None
           end.

Declare Scope js_scope.
Delimit Scope js_scope with js.
Notation "x <- m ;; k" := (bind m (fun x => k))
  (at level 100, m at next level, right associativity) : js_scope.
Notation "m ;; k" := (bind m (fun _ => k))
  (at level 100, right associativity) : js_scope.
Local Open Scope js_scope.

Definition get : M World := fun w => Some (w, w).
Definition modify (f : World -> World) : M unit := fun w => Some (tt, f w).

(** [for (const x of xs) body(x)] *)
Fixpoint for_of {A} (xs : list A) (body : A -> M unit) : M unit :=
  match xs with
  | [] => ret tt
  | x :: rest => body x ;; for_of rest body
  end.

(** [xs.map(f)], [xs.filter(p)] and [xs.find(p)] on the elements of an array,
    with callbacks that read the heap. *)
Fixpoint map_of {A B} (xs : list A) (f : A -> M B) : M (list B) :=
  match xs with
  | [] => ret []
  | x :: rest => y <- f x ;; ys <- map_of rest f ;; ret (y :: ys)
  end.

Fixpoint filter_of {A} (xs : list A) (p : A -> M bool) : M (list A) :=
  match xs with
  | [] => ret []
  | x :: rest =>
      b <- p x ;; ys <- filter_of rest p ;; ret (if b then x :: ys else ys)
  end.

Fixpoint find_of {A} (xs : list A) (p : A -> M bool) : M (option A) :=
  match xs with
  | [] => ret None
  | x :: rest => b <- p x ;; if b then ret (Some x) else find_of rest p
  end.

(** *** Heap accesses *)

Definition readObject (l : loc) : M Project :=
  fun w => match objects w !! l with
           | Some p => Some (p, w)
           | None => None
           end.

Definition writeObject (l : loc) (p : Project) : M unit :=
  fun w => match objects w !! l with
           | Some _ => Some (tt, set_objects (insert l p) w)
           | None => None
           end.

(** [new Project(...)] *)
Definition newObject (p : Project) : M loc :=
  fun w => let l := fresh (dom (objects w)) in
           Some (l, set_objects (insert l p) w).

Definition readArray (l : loc) : M (list loc) :=
  fun w => match arrays w !! l with
           | Some v => Some (v, w)
           | None => None
           end.

Definition writeArray (l : loc) (v : list loc) : M unit :=
  fun w => match arrays w !! l with
           | Some _ => Some (tt, set_arrays (insert l v) w)
           | None => None
           end.

Definition newArray (v : list loc) : M loc :=
  fun w => let l := fresh (dom (arrays w)) in
           Some (l, set_arrays (insert l v) w).

(** [a.push(x)] and [a.slice()] *)
Definition push (a : loc) (x : loc) : M unit :=
  v <- readArray a ;; writeArray a (v ++ [x]).

Definition slice (a : loc) : M loc :=
  v <- readArray a ;; newArray v.

(** [Math.random()] *)
Definition Math_random : M number :=
  fun w => Some (random w (drawn w), set_drawn S w).

(** [alert(message)] *)
Definition alert (message : jsstring) : M unit :=
  modify (set_alerts (fun shown => shown ++ [message])).

(** [console.log(title, desc, people)] *)
Definition console_log (t d : jsstring) (p : number) : M unit :=
  modify (set_console (fun lines => lines ++ [(t, d, p)])).

(** ** ProjectList: the listener of [configure] and [renderProjects] *)

Definition set_assignedProjects (v : list loc) (l : ProjectList) : ProjectList :=
  mkProjectList v (rows l).

Definition set_rows (r : list jsstring) (l : ProjectList) : ProjectList :=
  mkProjectList (assignedProjects l) r.

(** [renderProjects()]: empties the [ul] and appends one [li] per assigned
    project, with the project's title as its text. (In
    [components/project-list.ts] the row is a ProjectItem, a class that is
    not among the sources.) *)
Definition renderProjects (type : ListType) : M unit :=
  w <- get ;;
  titles <- map_of (assignedProjects (list_of type w))
                   (fun projItem => p <- readObject projItem ;; ret (title p)) ;;
  modify (set_list type (set_rows titles)).

(** The callback of [projects.filter] in [configure]. *)
Definition of_type (type : ListType) (proj : loc) : M bool :=
  p <- readObject proj ;;
  match type with
  | active => ret (bool_decide (status p = Active))
  | finished => ret (bool_decide (status p = Finished))
  end.

(** A call [listener(items)]. *)
Definition call (listener : Listener) (items : loc) : M unit :=
  content <- readArray items ;;
  modify (set_calls (fun log => log ++ [mkCall listener items content])) ;;
  match listener with
  | ListListener type =>
      kept <- filter_of content (of_type type) ;;
      modify (set_list type (set_assignedProjects kept)) ;;
      renderProjects type
  | Subscriber edit =>
      w <- get ;;
      writeArray items (edit (objects w) content)
  end.

(** ** ProjectState *)

(** [State.addListener] *)
Definition addListener (listener : Listener) : M unit :=
  modify (set_listeners (fun ls => ls ++ [listener])).

(** The loop that ends [addProjects],
    [for (const listener of this.listeners) listener(this.projects.slice())],
    and its body. *)
Definition notify (listener : Listener) : M unit :=
  w <- get ;;
  snapshot <- slice (projects w) ;;
  call listener snapshot.

Definition notifyListeners : M unit :=
  w <- get ;;
  for_of (listeners w) notify.

(** [ProjectState.addProjects] *)
Definition addProjects (title description : jsstring) (people : number) : M unit :=
  r <- Math_random ;;
  project <- newObject (mkProject (Num.to_string r) title description people Active) ;;
  w <- get ;;
  push (projects w) project ;;
  notifyListeners.

(** Modelled from the spec: [ProjectState.moveProject], which
    [ProjectList.dropHandler] calls and whose file (state/project-state.ts)
    is not among the sources. "Locates project by id; if found and newStatus
    differs from current, mutates status and notifies listeners; no-op
    (silently) if id not found or status unchanged", the listeners being
    "invoked with the full snapshot on every mutation". *)
Definition moveProject (projectId : jsstring) (newStatus : ProjectStatus) : M unit :=
  w <- get ;;
  content <- readArray (projects w) ;;
  found <- find_of content (fun prj =>
             p <- readObject prj ;; ret (bool_decide (id p = projectId))) ;;
  match found with
  | Some project =>
      p <- readObject project ;;
      if bool_decide (status p = newStatus) then ret tt
      else
        writeObject project
          (mkProject (id p) (title p) (description p) (people p) newStatus) ;;
        notifyListeners
  | None => ret tt
  end.

(** [ProjectList.dropHandler]: [prjId] is the text/plain payload of the drop. *)
Definition dropHandler (type : ListType) (prjId : jsstring) : M unit :=
  moveProject prjId
    (match type with active => Active | finished => Finished end).

(** ** Validation *)

(** [value: string | number] *)
Inductive Value :=
  | VString (s : jsstring)
  | VNumber (n : number).

(** [interface Validatable]; an optional field that is absent is [None]. *)
Record Validatable := mkValidatable {
  value : Value;
  required : option bool;
  minLength : option number;
  maxLength : option number;
  min : option number;
  max : option number
}.

(** [value.toString()] *)
Definition toString (v : Value) : jsstring :=
  match v with
  | VString s => s
  | VNumber n => Num.to_string n
  end.

(** The five [if] statements of [validate], each taking the [isValid] it
    finds to the one it leaves. *)
Definition check_required (validatableInput : Validatable) (isValid : bool) : bool :=
  match required validatableInput with
  | Some true =>
      isValid && negb (length (trim (toString (value validatableInput))) =? 0)%nat
  | _ => isValid
  end.

Definition check_minLength (validatableInput : Validatable) (isValid : bool) : bool :=
  match minLength validatableInput, value validatableInput with
  | Some n, VString s => isValid && Num.ge (Num.of_nat (length s)) n
  | _, _ => isValid
  end.

Definition check_maxLength (validatableInput : Validatable) (isValid : bool) : bool :=
  match maxLength validatableInput, value validatableInput with
  | Some n, VString s => isValid && Num.le (Num.of_nat (length s)) n
  | _, _ => isValid
  end.

Definition check_min (validatableInput : Validatable) (isValid : bool) : bool :=
  match min validatableInput, value validatableInput with
  | Some n, VNumber x => isValid && Num.ge x n
  | _, _ => isValid
  end.

Definition check_max (validatableInput : Validatable) (isValid : bool) : bool :=
  match max validatableInput, value validatableInput with
  | Some n, VNumber x => isValid && Num.le x n
  | _, _ => isValid
  end.

Definition validate (validatableInput : Validatable) : bool :=
  let isValid := true in
  let isValid := check_required validatableInput isValid in
  let isValid := check_minLength validatableInput isValid in
  let isValid := check_maxLength validatableInput isValid in
  let isValid := check_min validatableInput isValid in
  let isValid := check_max validatableInput isValid in
  isValid.

(** *** What [validate] is specified to compute

    One proposition per constraint: it holds when the constraint is absent
    or does not apply to the kind of value, and otherwise says that the
    constraint passes. *)

Definition required_passes (v : Validatable) : Prop :=
  required v = Some true -> trim (toString (value v)) <> [].

Definition minLength_passes (v : Validatable) : Prop :=
  forall n s, minLength v = Some n -> value v = VString s ->
              Num.ge (Num.of_nat (length s)) n = true.

Definition maxLength_passes (v : Validatable) : Prop :=
  forall n s, maxLength v = Some n -> value v = VString s ->
              Num.le (Num.of_nat (length s)) n = true.

Definition min_passes (v : Validatable) : Prop :=
  forall n x, min v = Some n -> value v = VNumber x -> Num.ge x n = true.

Definition max_passes (v : Validatable) : Prop :=
  forall n x, max v = Some n -> value v = VNumber x -> Num.le x n = true.

Definition all_constraints_pass (v : Validatable) : Prop :=
  required_passes v /\ minLength_passes v /\ maxLength_passes v
  /\ min_passes v /\ max_passes v.

(** ** ProjectInput *)

Definition titleValidatable (enteredTitle : jsstring) : Validatable :=
  mkValidatable (VString enteredTitle) (Some true) None None None None.

Definition descriptionValidatable (enteredDescription : jsstring) : Validatable :=
  mkValidatable (VString enteredDescription) (Some true)
                (Some (Num.of_nat 5)) None None None.

Definition peopleValidatable (enterdPeople : jsstring) : Validatable :=
  mkValidatable (VNumber (Num.of_string enterdPeople)) (Some true) None None
                (Some (Num.of_nat 1)) (Some (Num.of_nat 5)).

(** [gatherUserInput()]: the tuple, or nothing ([void]) after an alert. *)
Definition gatherUserInput : M (option (jsstring * jsstring * number)) :=
  w <- get ;;
  let enteredTitle := titleInputElement w in
  let enteredDescription := descriptionInputElement w in
  let enterdPeople := peopleInputElement w in
  if negb (validate (titleValidatable enteredTitle))
     || negb (validate (descriptionValidatable enteredDescription))
     || negb (validate (peopleValidatable enterdPeople))
  then alert (str "Invalid Input, please try again!") ;; ret None
  else ret (Some (enteredTitle, enteredDescription, Num.of_string enterdPeople)).

(** [clearInputs()] *)
Definition clearInputs : M unit := modify (set_inputs [] [] []).

(** [submitHandler(event)]; [event.preventDefault()] acts on the event only. *)
Definition submitHandler : M unit :=
  userInput <- gatherUserInput ;;
  match userInput with
  | Some (title, desc, people) =>
      addProjects title desc people ;;
      console_log title desc people ;;
      clearInputs
  | None => ret tt
  end.

(** ** The application

    The state after the three constructor calls that end [app.ts]: an empty
    store, an empty form, and the listeners of the two lists registered, the
    active one first. [rnd] is what [Math.random()] will return, call after
    call. *)
Definition start (rnd : nat -> number) : World :=
  mkWorld ∅ {[ 1%positive := [] ]} 1%positive
          [ListListener active; ListListener finished]
          [] [] []
          (mkProjectList [] []) (mkProjectList [] [])
          [] [] rnd 0 [].

(** The world a computation leaves, when it does not throw. *)
Definition exec {A} (m : M A) (w : World) : option World :=
  snd <$> m w.

(** The user types into the three fields and submits the form. *)
Definition typeInputs (t d p : jsstring) : M unit := modify (set_inputs t d p).

Definition submit (t d p : string) : M unit :=
  typeInputs (str t) (str d) (str p) ;; submitHandler.

(** ** Views of the store *)

(** The content of the store's array, [this.projects]. *)
Definition store (w : World) : option (list loc) := arrays w !! projects w.

(** The ids of the projects of the store, in order. *)
Definition ids (w : World) : option (list jsstring) :=
  match store w with
  | Some refs => mapM (fun l => id <$> objects w !! l) refs
  | None => None
  end.

(** Whether the Project instance at [l] has status [s], id [i]; its title. *)
Definition has_status (objs : gmap loc Project) (s : ProjectStatus) (l : loc) : bool :=
  match objs !! l with
  | Some p => bool_decide (status p = s)
  | None => false
  end.

Definition has_id (objs : gmap loc Project) (i : jsstring) (l : loc) : bool :=
  match objs !! l with
  | Some p => bool_decide (id p = i)
  | None => false
  end.

Definition title_at (objs : gmap loc Project) (l : loc) : jsstring :=
  match objs !! l with
  | Some p => title p
  | None => []
  end.

(** The status a list of a type shows. *)
Definition type_status (type : ListType) : ProjectStatus :=
  match type with
  | active => Active
  | finished => Finished
  end.

(** The store holds the references [ps], each to a Project instance. *)
Definition holds (w : World) (ps : list loc) : Prop :=
  store w = Some ps /\ Forall (fun l => is_Some (objects w !! l)) ps.

(** Whether the listener of the list of a type is among [ls]. *)
Definition registered (type : ListType) (ls : list Listener) : bool :=
  existsb (fun l => match l with
                    | ListListener t => bool_decide (t = type)
                    | Subscriber _ => false
                    end) ls.

(** What a listener leaves in the array it was called with. *)
Definition left_in (objs : gmap loc Project) (listener : Listener) (ps : list loc) : list loc :=
  match listener with
  | ListListener _ => ps
  | Subscriber edit => edit objs ps
  end.

(** The world after one round of the notification loop, on a store that
    holds [ps]: the closed form of one iteration. *)
Definition notified (ps : list loc) (w : World) (listener : Listener) : World :=
  let snapshot := fresh (dom (arrays w)) in
  let w1 := set_calls (fun log => log ++ [mkCall listener snapshot ps])
                      (set_arrays (insert snapshot ps) w) in
  match listener with
  | ListListener type =>
      let kept := List.filter (has_status (objects w) (type_status type)) ps in
      set_list type (set_rows (title_at (objects w) <$> kept))
               (set_list type (set_assignedProjects kept) w1)
  | Subscriber edit =>
      set_arrays (insert snapshot (edit (objects w) ps)) w1
  end.

(** What the list of a type holds and shows once its listener has run on a
    snapshot [ps]. *)
Definition shown (objs : gmap loc Project) (type : ListType) (ps : list loc) : ProjectList :=
  let kept := List.filter (has_status objs (type_status type)) ps in
  mkProjectList kept (title_at objs <$> kept).

(** The fields that a notification leaves alone. *)
Definition same_outside_lists (w w' : World) : Prop :=
  objects w' = objects w /\ projects w' = projects w
  /\ listeners w' = listeners w
  /\ titleInputElement w' = titleInputElement w
  /\ descriptionInputElement w' = descriptionInputElement w
  /\ peopleInputElement w' = peopleInputElement w
  /\ alerts w' = alerts w /\ console w' = console w
  /\ random w' = random w /\ drawn w' = drawn w.

(** The world in which [addProjects] starts its notification loop. *)
Definition added (title description : jsstring) (people : number)
    (ps : list loc) (w : World) : World :=
  let project := fresh (dom (objects w)) in
  set_arrays (insert (projects w) (ps ++ [project]))
    (set_objects
       (insert project
          (mkProject (Num.to_string (random w (drawn w))) title description people Active))
       (set_drawn S w)).

(** A sequence of submissions to the store, each a title, a description and
    a number of people. *)
Definition addAll (subs : list (jsstring * jsstring * number)) : M unit :=
  for_of subs (fun '(t, d, p) => addProjects t d p).

(** The ids that [n] calls of [addProjects] generate in [w]. *)
Definition generated (w : World) (n : nat) : list jsstring :=
  (fun i => Num.to_string (random w i)) <$> seq (drawn w) n.

(** A subscriber that empties the array it receives and pushes a stale
    reference into it. *)
Definition vandal : Listener := Subscriber (fun _ _ => [9%positive]).

(** The application once the submission of "Build site" has been accepted,
    with [Math.random()] returning 0.5. *)
Definition half : number := Num.of_decimal false 5 (-1).

Definition one_project : World :=
  default (start (fun _ => half))
    (exec (addProjects (str "Build site") (str "Company site") (Num.of_nat 3))
          (start (fun _ => half))).

(** The Project instance it holds. *)
Definition build_site : Project :=
  mkProject (str "0.5") (str "Build site") (str "Company site") (Num.of_nat 3) Active.

(** The three validations of [gatherUserInput], on the fields of the form. *)
Definition input_valid (w : World) : bool :=
  validate (titleValidatable (titleInputElement w))
  && validate (descriptionValidatable (descriptionInputElement w))
  && validate (peopleValidatable (peopleInputElement w)).

(** A [Math.random] that returns 0.1, 0.2, 0.3, ... *)
Definition tenths (i : nat) : number := Num.of_decimal false (N.of_nat (S i)) (-1).

(** Two submissions, both acceptable to the form. *)
Definition two_submissions : list (jsstring * jsstring * number) :=
  [(str "Build site", str "Company site", Num.of_nat 3);
   (str "Ship it", str "Release day", Num.of_nat 2)].

(** ** The application in use *)

(** The Project instances of the store, in order. *)
Definition projects_of (w : World) : option (list Project) :=
  match store w with
  | Some refs => mapM (fun l => objects w !! l) refs
  | None => None
  end.






(** What the sources let a user or a component do to the application:
    type into the form, submit it, register a listener, or call
    [addProjects] directly. *)
Inductive Action :=
  | Fill (t d p : jsstring)
  | Submit
  | Register (listener : Listener)
  | Add (title description : jsstring) (people : number).

Definition perform (a : Action) : M unit :=
  match a with
  | Fill t d p => typeInputs t d p
  | Submit => submitHandler
  | Register listener => addListener listener
  | Add title description people => addProjects title description people
  end.

Definition performAll (actions : list Action) : M unit :=
  for_of actions perform.

(** [v] asks for no more than [v'] does, of the same value. *)
Definition weaker (v v' : Validatable) : Prop :=
  value v = value v'
  /\ (required v = Some true -> required v' = Some true)
  /\ (forall n, minLength v = Some n -> minLength v' = Some n)
  /\ (forall n, maxLength v = Some n -> maxLength v' = Some n)
  /\ (forall n, min v = Some n -> min v' = Some n)
  /\ (forall n, max v = Some n -> max v' = Some n).


(** A session at the application. *)
Definition session : list Action :=
  [Fill (str "Build site") (str "Company site") (str "3"); Submit;
   Register vandal; Add (str "") (str "") S754_nan; Submit].

(** The form of [one_project] filled for a second project. *)
Definition second_form : World :=
  set_inputs (str "Second") (str "Another one") (str "2") one_project.

(** The type of the other list. *)
Definition other (type : ListType) : ListType :=
  match type with
  | active => finished
  | finished => active
  end.

(** ** ProjectList as a drag target (components/project-list.ts)

    What the two handlers touch: the drag event, of which they read the
    types of the data transfer (there may be no data transfer) and which
    they may mark as handled, and the class list of the list's [ul]. *)

Record DragEvent := mkDragEvent {
  dataTransfer : option (list jsstring);
  defaultPrevented : bool
}.

(** [classList.add(token)] and [classList.remove(token)] of a DOMTokenList:
    an ordered set of tokens. *)
Definition classList_add (token : jsstring) (cl : list jsstring) : list jsstring :=
  if bool_decide (token ∈ cl) then cl else cl ++ [token].

Definition classList_remove (token : jsstring) (cl : list jsstring) : list jsstring :=
  List.filter (fun t => negb (bool_decide (t = token))) cl.

(** [dragOverHandler(event)] *)
Definition dragOverHandler (event : DragEvent) (cl : list jsstring)
    : DragEvent * list jsstring :=
  match dataTransfer event with
  | Some (t :: _) =>
      if bool_decide (t = str "text/plain")
      then (mkDragEvent (dataTransfer event) true, classList_add (str "droppable") cl)
      else (event, cl)
  | _ => (event, cl)
  end.

(** [dragLeaveHandler(_)] *)
Definition dragLeaveHandler (cl : list jsstring) : list jsstring :=
  classList_remove (str "droppable") cl.

(** ** The singleton (ProjectState.getInstance)

    The static field [instance], undefined at first, and the ProjectState
    objects constructed so far. *)
Record Statics := mkStatics {
  instance : option loc;
  constructed : gset loc
}.

Definition getInstance (st : Statics) : loc * Statics :=
  match instance st with
  | Some i => (i, st)
  | None =>
      let i := fresh (constructed st) in
      (i, mkStatics (Some i) ({[ i ]} ∪ constructed st))
  end.

(** A store with one Finished and one Active project -- two accepted
    submissions, the first then dropped on the finished list -- whose two
    lists have not been told yet: both are empty. *)
Definition two_projects : World :=
  default (start tenths)
    (exec (addAll two_submissions ;; dropHandler finished (str "0.1"))
          (start tenths)).

Definition stale_lists : World :=
  set_list active (fun _ => mkProjectList [] [])
    (set_list finished (fun _ => mkProjectList [] []) two_projects).

(** * Properties *)

(** ** Strings and numbers *)

(** The built-ins on a few inputs. *)
Example trim_padded : trim (str "  a b ") = str "a b".
Proof. reflexivity. Qed.

Example of_string_examples :
  Num.of_string (str " 3 ") = Num.of_nat 3
  /\ Num.of_string (str "") = S754_zero false
  /\ Num.of_string (str "abc") = S754_nan
  /\ Num.of_string (str "0x1F") = Num.of_nat 31
  /\ Num.of_string (str "1.5") = S754_finite false 6755399441055744 (-52)
  /\ Num.of_string (str "1e400") = S754_infinity false.
Proof. repeat split; vm_compute; reflexivity. Qed.

Example to_string_examples :
  Num.to_string (Num.of_string (str "0.1")) = str "0.1"
  /\ Num.to_string (Num.of_string (str "0.30000000000000004"))
     = str "0.30000000000000004"
  /\ Num.to_string (Num.of_string (str "1e21")) = str "1e+21"
  /\ Num.to_string (Num.of_string (str "123456789012345680000"))
     = str "123456789012345680000"
  /\ Num.to_string (Num.of_string (str "0.000001")) = str "0.000001"
  /\ Num.to_string (Num.of_string (str "1e-7")) = str "1e-7"
  /\ Num.to_string (Num.of_string (str "-1.5")) = str "-1.5"
  /\ Num.to_string (Num.of_string (str "5e-324")) = str "5e-324".
Proof.
  split; [vm_compute; reflexivity|]. split; [vm_compute; reflexivity|].
  split; [vm_compute; reflexivity|]. split; [vm_compute; reflexivity|].
  split; [vm_compute; reflexivity|]. split; [vm_compute; reflexivity|].
  split; vm_compute; reflexivity.
Qed.

Section Trim.

Implicit Types s : jsstring.

Lemma trimStart_blank s : forallb is_ws s = true -> trimStart s = [].
Proof.
  induction s as [|c t IH]; simpl; [done|].
  intros [Hc Ht]%andb_true_iff. rewrite Hc. auto.
Qed.

Lemma trimStart_keeps s :
  existsb (fun c => negb (is_ws c)) s = true ->
  existsb (fun c => negb (is_ws c)) (trimStart s) = true.
Proof.
  induction s as [|c t IH]; simpl; [done|].
  destruct (is_ws c) eqn:Hc; simpl; [auto|].
  intros _. by rewrite Hc.
Qed.

Lemma existsb_rev (f : N -> bool) s : existsb f (rev s) = existsb f s.
Proof.
  induction s as [|c t IH]; simpl; [done|].
  rewrite existsb_app, IH. simpl. rewrite orb_false_r. apply orb_comm.
Qed.

Lemma trim_blank s : forallb is_ws s = true -> trim s = [].
Proof. intros H. unfold trim. by rewrite (trimStart_blank s H). Qed.

Lemma trim_keeps s :
  existsb (fun c => negb (is_ws c)) s = true -> trim s <> [].
Proof.
  intros H%trimStart_keeps. unfold trim, trimEnd.
  rewrite <- existsb_rev in H. apply trimStart_keeps in H.
  rewrite <- existsb_rev in H. intros E. rewrite E in H. discriminate.
Qed.

End Trim.

Section NumberToString.

Local Open Scope Z_scope.

Lemma digits_aux_head fuel : forall n acc,
  exists c t, Num.digits_aux fuel n acc = c :: t /\ Num.is_digit c = true.
Proof.
  assert (Hd : forall n : N, Num.is_digit (48 + n mod 10) = true).
  { intros n. unfold Num.is_digit.
    assert (n mod 10 < 10)%N by (apply N.mod_upper_bound; lia).
    generalize dependent (n mod 10)%N. intros r Hr.
    apply andb_true_iff. split; apply N.leb_le; lia. }
  induction fuel as [|fuel IH]; intros n acc; simpl.
  - eauto.
  - destruct (n / 10 =? 0)%N; eauto.
Qed.

Lemma digits_head n :
  exists c t, Num.digits n = c :: t /\ Num.is_digit c = true.
Proof. apply digits_aux_head. Qed.

Lemma digit_not_ws c : Num.is_digit c = true -> is_ws c = false.
Proof.
  unfold Num.is_digit, is_ws. intros [H1 H2]%andb_true_iff.
  apply N.leb_le in H1. apply N.leb_le in H2.
  repeat (apply orb_false_iff; split);
    try apply andb_false_iff; try (apply N.eqb_neq; lia).
  - right. apply N.leb_gt. lia.
  - left. apply N.leb_gt. lia.
Qed.

(** Whatever the position of the point, the layout of a digit string
    shows at least one character that is not white space. *)
Lemma layout_visible c t n :
  Num.is_digit c = true ->
  existsb (fun c => negb (is_ws c)) (Num.layout (c :: t) n) = true.
Proof.
  intros Hc%digit_not_ws. unfold Num.layout.
  repeat case_match; simpl; rewrite ?Hc; try done.
  - rewrite existsb_app. simpl. by rewrite orb_true_r.
Qed.

Lemma positive_to_string_visible m e :
  existsb (fun c => negb (is_ws c)) (Num.positive_to_string m e) = true.
Proof.
  unfold Num.positive_to_string.
  destruct (Num.shortest _ _ _ _ _) as [k s].
  destruct (s =? 10 ^ k).
  - destruct (digits_head (Z.to_N (10 ^ (k - 1)))) as (c & t & -> & Hc).
    by apply layout_visible.
  - destruct (digits_head (Z.to_N s)) as (c & t & -> & Hc).
    by apply layout_visible.
Qed.

(** The string of a number is never blank. *)
Lemma to_string_visible x :
  existsb (fun c => negb (is_ws c)) (Num.to_string x) = true.
Proof.
  destruct x as [s|[]| |[] m e]; try reflexivity.
  apply positive_to_string_visible.
Qed.

End NumberToString.

(** ** Validation *)

(** The required check, by itself: it keeps [true] exactly when the trimmed
    string of the value is not empty. *)
Lemma check_required_true v :
  required v = Some true ->
  check_required v true = true <-> trim (toString (value v)) <> [].
Proof.
  intros Hr. unfold check_required. rewrite Hr. simpl.
  destruct (trim (toString (value v))); simpl; split; congruence.
Qed.

(** A check never turns a failed validation into a passed one. *)
Lemma validate_required v :
  validate v = true -> check_required v true = true.
Proof.
  unfold validate, check_minLength, check_maxLength, check_min, check_max.
  destruct (check_required v true); [done|].
  repeat case_match; simpl; congruence.
Qed.

(** Each check keeps [isValid] true exactly when it was true and the
    constraint passes; the four optional-number checks share one proof. *)
Ltac solve_check :=
  split;
  [ intros H; split; [tauto|]; intros ? ? ? ?; simplify_eq; tauto
  | intros [-> H]; try split; try done; by apply H ].

Section Checks.

Variable v : Validatable.

Lemma check_required_iff b :
  check_required v b = true <-> b = true /\ required_passes v.
Proof.
  unfold check_required, required_passes.
  destruct (required v) as [[]|]; [|split; [intros ->; by split|by intros [-> _]]..].
  rewrite andb_true_iff, negb_true_iff, Nat.eqb_neq.
  split; intros [Hb Ht]; split; auto.
  - intros _ E. by rewrite E in Ht.
  - intros E. apply Ht; [done|]. by destruct (trim _).
Qed.

Lemma check_minLength_iff b :
  check_minLength v b = true <-> b = true /\ minLength_passes v.
Proof.
  unfold check_minLength, minLength_passes.
  destruct (minLength v) as [n|], (value v) as [s|x];
    rewrite ?andb_true_iff; solve_check.
Qed.

Lemma check_maxLength_iff b :
  check_maxLength v b = true <-> b = true /\ maxLength_passes v.
Proof.
  unfold check_maxLength, maxLength_passes.
  destruct (maxLength v) as [n|], (value v) as [s|x];
    rewrite ?andb_true_iff; solve_check.
Qed.

Lemma check_min_iff b :
  check_min v b = true <-> b = true /\ min_passes v.
Proof.
  unfold check_min, min_passes.
  destruct (min v) as [n|], (value v) as [s|x];
    rewrite ?andb_true_iff; solve_check.
Qed.

Lemma check_max_iff b :
  check_max v b = true <-> b = true /\ max_passes v.
Proof.
  unfold check_max, max_passes.
  destruct (max v) as [n|], (value v) as [s|x];
    rewrite ?andb_true_iff; solve_check.
Qed.

End Checks.

(** C4. [validate] returns true if and only if every constraint that is
    present passes, the length constraints counting only for a string value
    and the numeric ones only for a number value. [validate] is a function
    of its argument alone: it reads no state and leaves none. *)
Theorem validate_iff_all_constraints_pass (v : Validatable) :
  validate v = true <-> all_constraints_pass v.
Proof.
  unfold validate, all_constraints_pass.
  rewrite check_max_iff, check_min_iff, check_maxLength_iff,
          check_minLength_iff, check_required_iff.
  tauto.
Qed.

(** C9. With [required] set, the required check passes exactly when the
    string of the value, trimmed, is not empty: a string of white space only
    fails it (and with it the validation), and every number passes it. *)
Theorem required_check (v : Validatable) :
  required v = Some true ->
  (check_required v true = true <-> trim (toString (value v)) <> [])
  /\ (forall s, value v = VString s -> forallb is_ws s = true ->
        check_required v true = false /\ validate v = false)
  /\ (forall n, value v = VNumber n -> check_required v true = true).
Proof.
  intros Hr. pose proof (check_required_true v Hr) as Hiff.
  split; [done|]. split.
  - intros s Hs Hblank.
    assert (Hc : check_required v true = false).
    { apply not_true_is_false. rewrite Hiff, Hs. simpl.
      intros H. by apply H, trim_blank. }
    split; [done|]. apply not_true_is_false.
    intros H%validate_required. congruence.
  - intros n Hn. apply Hiff. rewrite Hn. simpl.
    apply trim_keeps, to_string_visible.
Qed.

Lemma required_check_witness :
  required (titleValidatable (str "   ")) = Some true
  /\ validate (titleValidatable (str "   ")) = false
  /\ check_required (peopleValidatable (str "0")) true = true.
Proof.
  split; [reflexivity|]. split.
  - destruct (required_check (titleValidatable (str "   ")) eq_refl)
      as (_ & Hblank & _).
    apply (Hblank (str "   ")); reflexivity.
  - destruct (required_check (peopleValidatable (str "0")) eq_refl)
      as (_ & _ & Hnumber).
    apply (Hnumber (Num.of_string (str "0"))); reflexivity.
Defined.

(** ** Callbacks that only read the heap *)

Section Callbacks.

Context {A : Type}.

Lemma filter_of_reads (xs : list A) (p : A -> M bool) (f : A -> bool) w :
  Forall (fun x => p x w = Some (f x, w)) xs ->
  filter_of xs p w = Some (List.filter f xs, w).
Proof.
  induction 1 as [|x xs Hx _ IH]; simpl; [done|].
  unfold bind at 1. rewrite Hx. unfold bind at 1. rewrite IH.
  unfold ret. by destruct (f x).
Qed.

Lemma map_of_reads {B} (xs : list A) (g : A -> M B) (f : A -> B) w :
  Forall (fun x => g x w = Some (f x, w)) xs ->
  map_of xs g w = Some (f <$> xs, w).
Proof.
  induction 1 as [|x xs Hx _ IH]; simpl; [done|].
  unfold bind at 1. rewrite Hx. unfold bind at 1. by rewrite IH.
Qed.

Lemma find_of_reads (xs : list A) (p : A -> M bool) (f : A -> bool) w :
  Forall (fun x => p x w = Some (f x, w)) xs ->
  find_of xs p w = Some (List.find f xs, w).
Proof.
  induction 1 as [|x xs Hx _ IH]; simpl; [done|].
  unfold bind at 1. rewrite Hx. by destruct (f x).
Qed.

End Callbacks.

Lemma of_type_reads type l w :
  is_Some (objects w !! l) ->
  of_type type l w = Some (has_status (objects w) (type_status type) l, w).
Proof.
  intros [p Hp]. unfold of_type, has_status, bind, readObject.
  rewrite Hp. by destruct type.
Qed.

Lemma filter_subset {A} (f : A -> bool) (P : A -> Prop) xs :
  Forall P xs -> Forall P (List.filter f xs).
Proof.
  induction 1 as [|x xs Hx _ IH]; simpl; [constructor|].
  destruct (f x); auto.
Qed.

(** ** One round of the notification loop *)

Lemma fresh_array_unused w : arrays w !! fresh (dom (arrays w)) = None.
Proof. apply not_elem_of_dom, is_fresh. Qed.

Lemma fresh_object_unused w : objects w !! fresh (dom (objects w)) = None.
Proof. apply not_elem_of_dom, is_fresh. Qed.

Lemma notify_run listener w ps :
  holds w ps -> notify listener w = Some (tt, notified ps w listener).
Proof.
  intros [Hs Ho]. unfold store in Hs.
  unfold notify, slice, call, readArray, newArray, bind at 1 2 3 4, get.
  rewrite Hs. cbn [arrays set_arrays projects].
  rewrite lookup_insert_eq. unfold bind at 1, modify.
  destruct listener as [type|edit].
  - unfold bind at 1.
    rewrite (filter_of_reads _ _ (has_status (objects w) (type_status type))).
    2:{ eapply Forall_impl; [exact Ho|]. intros l Hl.
        by rewrite of_type_reads. }
    unfold bind at 1, renderProjects, bind at 1, get, bind.
    set (kept := List.filter _ ps).
    rewrite (map_of_reads _ _ (title_at (objects w))).
    2:{ assert (Hk : Forall (fun l => is_Some (objects w !! l)) kept)
          by by apply filter_subset.
        destruct type; cbn; (eapply Forall_impl; [exact Hk|]);
          intros l [p Hp]; unfold readObject, title_at; cbn; by rewrite Hp. }
    by destruct type.
  - unfold bind, get, writeArray. cbn [arrays set_calls set_arrays].
    by rewrite lookup_insert_eq.
Qed.

Section Notified.

Variable ps : list loc.

Lemma same_outside_lists_notified w l : same_outside_lists w (notified ps w l).
Proof. by destruct l as [[]|]. Qed.

Lemma calls_notified w l :
  calls (notified ps w l) = calls w ++ [mkCall l (fresh (dom (arrays w))) ps].
Proof. by destruct l as [[]|]. Qed.

Lemma arrays_notified w l a :
  arrays (notified ps w l) !! a =
    if decide (a = fresh (dom (arrays w)))
    then Some (left_in (objects w) l ps)
    else arrays w !! a.
Proof.
  destruct l as [[]|]; cbn; case_decide as Ha; subst;
    rewrite ?lookup_insert_eq, ?lookup_insert_ne; auto.
Qed.

Lemma arrays_notified_old w l a :
  is_Some (arrays w !! a) -> arrays (notified ps w l) !! a = arrays w !! a.
Proof.
  intros Ha. rewrite arrays_notified. case_decide as E; [|done].
  subst. rewrite fresh_array_unused in Ha. by destruct Ha.
Qed.

Lemma list_of_notified w l type :
  list_of type (notified ps w l) =
    if registered type [l] then shown (objects w) type ps else list_of type w.
Proof. by destruct l as [[]|], type. Qed.

Lemma holds_notified w l : holds w ps -> holds (notified ps w l) ps.
Proof.
  intros [Hs Ho]. destruct (same_outside_lists_notified w l) as (Eo & Ep & _).
  split.
  - unfold store in *. rewrite Ep, arrays_notified_old; [done|].
    by rewrite Hs.
  - by rewrite Eo.
Qed.

(** The loop, in closed form. *)
Lemma for_of_notify ls : forall w,
  holds w ps -> for_of ls notify w = Some (tt, fold_left (notified ps) ls w).
Proof.
  induction ls as [|l ls IH]; intros w Hw; simpl; [done|].
  unfold bind. rewrite (notify_run l w ps Hw).
  apply IH, holds_notified, Hw.
Qed.

Lemma same_outside_lists_fold ls : forall w,
  same_outside_lists w (fold_left (notified ps) ls w).
Proof.
  induction ls as [|l ls IH]; intros w; simpl; [by repeat split|].
  specialize (IH (notified ps w l)).
  pose proof (same_outside_lists_notified w l) as H.
  unfold same_outside_lists in *.
  destruct IH as (?&?&?&?&?&?&?&?&?&?), H as (?&?&?&?&?&?&?&?&?&?).
  repeat split; congruence.
Qed.

Lemma arrays_fold_old ls : forall w a,
  is_Some (arrays w !! a) ->
  arrays (fold_left (notified ps) ls w) !! a = arrays w !! a.
Proof.
  induction ls as [|l ls IH]; intros w a Ha; simpl; [done|].
  rewrite IH; rewrite arrays_notified_old; done.
Qed.

(** The calls of one loop: one per listener, in order, each with an array
    that did not exist before, holding [ps] when the listener is entered
    and what the listener made of it afterwards. *)
Lemma calls_fold ls : forall w,
  exists args,
    calls (fold_left (notified ps) ls w)
      = calls w ++ zip_with (fun l a => mkCall l a ps) ls args
    /\ Forall2 (fun l a =>
                  arrays w !! a = None
                  /\ arrays (fold_left (notified ps) ls w) !! a
                     = Some (left_in (objects w) l ps)) ls args.
Proof.
  induction ls as [|l ls IH]; intros w; simpl.
  - exists []. by rewrite app_nil_r.
  - destruct (IH (notified ps w l)) as (args & Hc & Ha).
    exists (fresh (dom (arrays w)) :: args). split.
    + rewrite Hc, calls_notified, <- app_assoc. done.
    + constructor.
      * split; [apply fresh_array_unused|].
        rewrite arrays_fold_old; rewrite arrays_notified;
          by rewrite decide_True.
      * eapply Forall2_impl; [exact Ha|]. intros l' a [Hn Hl]. split.
        -- destruct (arrays w !! a) eqn:E; [|done].
           rewrite arrays_notified_old in Hn; [congruence|by rewrite E].
        -- destruct (same_outside_lists_notified w l) as (<- & _). done.
Qed.

Lemma list_of_fold ls type : forall w,
  list_of type (fold_left (notified ps) ls w) =
    if registered type ls then shown (objects w) type ps else list_of type w.
Proof.
  induction ls as [|l ls IH]; intros w; simpl; [done|].
  rewrite IH, list_of_notified.
  destruct (same_outside_lists_notified w l) as (-> & _).
  simpl. rewrite orb_false_r.
  by destruct (registered type ls), l as [t|]; simpl; try case_bool_decide.
Qed.

End Notified.

Lemma notifyListeners_run w ps :
  holds w ps ->
  notifyListeners w = Some (tt, fold_left (notified ps) (listeners w) w).
Proof. intros Hw. unfold notifyListeners, bind, get. by apply for_of_notify. Qed.

(** ** addProjects *)

Section AddProjects.

Variables (title description : jsstring) (people : number).
Variables (w : World) (ps : list loc).
Hypothesis Hw : holds w ps.

Let project := fresh (dom (objects w)).
Let w0 := added title description people ps w.

Lemma holds_added : holds w0 (ps ++ [project]).
Proof using Hw.
  destruct Hw as [Hs Ho]. split.
  - unfold store. cbn. apply lookup_insert_eq.
  - apply Forall_app. split.
    + eapply Forall_impl; [exact Ho|]. intros l [q Hq]. cbn.
      destruct (decide (l = project)) as [->|Hne].
      * rewrite lookup_insert_eq. eauto.
      * rewrite lookup_insert_ne; eauto.
    + constructor; [|constructor]. cbn. rewrite lookup_insert_eq. eauto.
Qed.

Lemma addProjects_run :
  addProjects title description people w
  = Some (tt, fold_left (notified (ps ++ [project])) (listeners w) w0).
Proof using Hw.
  pose proof holds_added as H0. destruct Hw as [Hs Ho]. unfold store in Hs.
  unfold addProjects, Math_random, newObject, push, readArray, writeArray,
    bind, get.
  cbn [arrays set_objects set_drawn projects objects drawn random].
  rewrite Hs. cbn [arrays set_objects set_drawn]. rewrite Hs.
  change (notifyListeners w0
          = Some (tt, fold_left (notified (ps ++ [project])) (listeners w) w0)).
  by rewrite (notifyListeners_run w0 _ H0).
Qed.

End AddProjects.

(** C1. On a store that holds [ps], [addProjects] returns normally, having
    created one Project instance -- with the string of the number just drawn
    from [Math.random] as id, the arguments as title, description and
    people, and status Active -- and appended it to the store's array, whose
    length has grown by one; and it has then called every registered
    listener once, in registration order, each with an array that held the
    full new list. *)
Theorem addProjects_appends_and_notifies
    (title description : jsstring) (people : number) (w : World) (ps : list loc) :
  holds w ps ->
  exists w' project args,
    addProjects title description people w = Some (tt, w')
    /\ objects w !! project = None
    /\ objects w' =
         <[project := mkProject (Num.to_string (random w (drawn w)))
                                title description people Active]> (objects w)
    /\ store w' = Some (ps ++ [project])
    /\ length (ps ++ [project]) = S (length ps)
    /\ drawn w' = S (drawn w)
    /\ length args = length (listeners w)
    /\ calls w' = calls w
         ++ zip_with (fun l a => mkCall l a (ps ++ [project])) (listeners w) args.
Proof.
  intros Hw. set (project := fresh (dom (objects w))).
  set (w0 := added title description people ps w).
  set (w' := fold_left (notified (ps ++ [project])) (listeners w) w0).
  pose proof (holds_added title description people w ps Hw) as H0.
  destruct (calls_fold (ps ++ [project]) (listeners w) w0) as (args & Hc & Ha).
  destruct (same_outside_lists_fold (ps ++ [project]) (listeners w) w0)
    as (Eo & Ep & _ & _ & _ & _ & _ & _ & _ & Ed).
  exists w', project, args. repeat split.
  - by apply addProjects_run.
  - apply fresh_object_unused.
  - exact Eo.
  - destruct H0 as [Hs0 _]. unfold store in *. subst w' w0. rewrite Ep.
    rewrite arrays_fold_old; [exact Hs0|]. rewrite Hs0. eauto.
  - rewrite length_app. simpl. lia.
  - exact Ed.
  - symmetry. eapply Forall2_length, Ha.
  - exact Hc.
Qed.

Lemma addProjects_appends_and_notifies_witness :
  holds (start (fun _ => Num.of_nat 0)) []
  /\ exists w' project (args : list loc),
       addProjects (str "Build site") (str "Company site") (Num.of_nat 3)
                   (start (fun _ => Num.of_nat 0)) = Some (tt, w')
       /\ objects (start (fun _ => Num.of_nat 0)) !! project = None
       /\ objects w' =
            <[project := mkProject (str "0") (str "Build site")
                           (str "Company site") (Num.of_nat 3) Active]> ∅
       /\ store w' = Some [project]
       /\ length [project] = 1
       /\ drawn w' = 1
       /\ length args = 2
       /\ calls w' = [mkCall (ListListener active) (args !!! 0) [project];
                      mkCall (ListListener finished) (args !!! 1) [project]].
Proof.
  assert (Hw : holds (start (fun _ => Num.of_nat 0)) [])
    by (split; [reflexivity|constructor]).
  split; [exact Hw|].
  destruct (addProjects_appends_and_notifies
              (str "Build site") (str "Company site") (Num.of_nat 3)
              (start (fun _ => Num.of_nat 0)) [] Hw)
    as (w' & project & args & H1 & H2 & H3 & H4 & H5 & H6 & H7 & H8).
  exists w', project, args.
  destruct args as [|a0 [|a1 [|]]]; try discriminate H7.
  repeat split; assumption.
Defined.

(** C7. Each listener that [addProjects] calls is given an array of its
    own: one that did not exist before the call, is not the store's array,
    and held the full list when the listener was entered. Whatever a
    listener makes of that array stays in that array: after all the calls
    the store's array still holds exactly the full list. *)
Theorem listeners_get_a_copy
    (title description : jsstring) (people : number) (w : World) (ps : list loc) :
  holds w ps ->
  exists w' project args,
    addProjects title description people w = Some (tt, w')
    /\ calls w' = calls w
         ++ zip_with (fun l a => mkCall l a (ps ++ [project])) (listeners w) args
    /\ Forall2 (fun l a =>
                  a <> projects w /\ arrays w !! a = None
                  /\ arrays w' !! a
                     = Some (left_in (objects w') l (ps ++ [project])))
               (listeners w) args
    /\ projects w' = projects w
    /\ store w' = Some (ps ++ [project]).
Proof.
  intros Hw. pose (project := fresh (dom (objects w))).
  pose proof (holds_added title description people w ps Hw) as [Hs0 _].
  pose proof (addProjects_run title description people w ps Hw) as Hrun.
  destruct (calls_fold (ps ++ [project]) (listeners w)
              (added title description people ps w)) as (args & Hc & Ha).
  destruct (same_outside_lists_fold (ps ++ [project]) (listeners w)
              (added title description people ps w)) as (Eo & Ep & _).
  unfold store in *. destruct Hw as [Hs _]. unfold store in Hs.
  subst project. eexists _, _, args. split; [exact Hrun|]. repeat split.
  - exact Hc.
  - eapply Forall2_impl; [exact Ha|]. intros l a [Hn Hl]. cbn in Hn.
    assert (a <> projects w).
    { intros ->. by rewrite lookup_insert_eq in Hn. }
    repeat split; [done| |].
    + by rewrite lookup_insert_ne in Hn.
    + by rewrite Eo.
  - exact Ep.
  - rewrite Ep, arrays_fold_old; [exact Hs0|]. rewrite Hs0. eauto.
Qed.

Lemma listeners_get_a_copy_witness :
  let w := set_listeners (fun ls => ls ++ [vandal]) (start (fun _ => Num.of_nat 0)) in
  holds w []
  /\ exists w' project (args : list loc),
       addProjects (str "Build site") (str "Company site") (Num.of_nat 3) w
         = Some (tt, w')
       /\ (exists a, args !! 2%nat = Some a /\ a <> projects w'
                      /\ arrays w' !! a = Some [9%positive])
       /\ store w' = Some [project].
Proof.
  intros w.
  assert (Hw : holds w []) by (split; [reflexivity|constructor]).
  split; [exact Hw|].
  destruct (listeners_get_a_copy
              (str "Build site") (str "Company site") (Num.of_nat 3) w [] Hw)
    as (w' & project & args & Hrun & _ & Ha & Ep & Hs).
  exists w', project, args.
  destruct args as [|a0 [|a1 [|a2 [|]]]];
    try (apply Forall2_length in Ha; discriminate Ha).
  apply Forall2_cons_1 in Ha as [_ Ha].
  apply Forall2_cons_1 in Ha as [_ Ha].
  apply Forall2_cons_1 in Ha as [(Hne & _ & Hl) _].
  repeat split; try assumption.
  exists a2. rewrite Ep. repeat split; assumption.
Defined.

(** ** The two lists after a notification *)

Lemma registered_In type ls :
  In (ListListener type) ls -> registered type ls = true.
Proof.
  intros H. apply existsb_exists. exists (ListListener type).
  split; [done|]. by apply bool_decide_eq_true.
Qed.

Lemma has_status_split objs l :
  is_Some (objs !! l) ->
  has_status objs Finished l = negb (has_status objs Active l).
Proof.
  intros [p Hp]. unfold has_status. rewrite Hp.
  by destruct (status p).
Qed.

Lemma filter_split (f g : loc -> bool) ps :
  Forall (fun l => g l = negb (f l)) ps ->
  List.filter f ps ++ List.filter g ps ≡ₚ ps.
Proof.
  induction 1 as [|l ps Hl _ IH]; simpl; [done|].
  rewrite Hl. destruct (f l); simpl.
  - by f_equiv.
  - by rewrite <- Permutation_middle, IH.
Qed.

(** C10. A notification of a store that holds [ps], with the listeners of
    both lists registered, hands [ps] to each listener and leaves the active
    list with exactly the projects of [ps] whose status is Active and the
    finished list with exactly those whose status is Finished, in the order
    of [ps]: the two lists together are a rearrangement of [ps], and each
    project of [ps] is in one of them and not in the other. *)
Theorem lists_partition_the_snapshot (w : World) (ps : list loc) :
  holds w ps ->
  In (ListListener active) (listeners w) ->
  In (ListListener finished) (listeners w) ->
  exists w' args,
    notifyListeners w = Some (tt, w')
    /\ calls w' = calls w ++ zip_with (fun l a => mkCall l a ps) (listeners w) args
    /\ length args = length (listeners w)
    /\ assignedProjects (activeProjectLists w')
       = List.filter (has_status (objects w') Active) ps
    /\ assignedProjects (finishedProjectLists w')
       = List.filter (has_status (objects w') Finished) ps
    /\ (assignedProjects (activeProjectLists w')
          ++ assignedProjects (finishedProjectLists w') ≡ₚ ps)
    /\ forall l, l ∈ ps ->
         (l ∈ assignedProjects (activeProjectLists w')
          /\ l ∉ assignedProjects (finishedProjectLists w'))
         \/ ((l ∉ assignedProjects (activeProjectLists w'))
             /\ l ∈ assignedProjects (finishedProjectLists w')).
Proof.
  intros Hw Ha%registered_In Hf%registered_In.
  destruct (calls_fold ps (listeners w) w) as (args & Hc & Hargs).
  destruct (same_outside_lists_fold ps (listeners w) w) as (Eo & _).
  pose proof (list_of_fold ps (listeners w) active w) as Hact.
  pose proof (list_of_fold ps (listeners w) finished w) as Hfin.
  rewrite Ha in Hact. rewrite Hf in Hfin. simpl in Hact, Hfin.
  destruct Hw as [Hs Ho].
  eexists _, args. split; [by apply notifyListeners_run|].
  rewrite Hact, Hfin, Eo. simpl. repeat split; try done.
  - symmetry. eapply Forall2_length, Hargs.
  - apply filter_split. eapply Forall_impl; [exact Ho|].
    intros l Hl. by apply has_status_split.
  - intros l Hl. rewrite !list_elem_of_In, !filter_In, <- !list_elem_of_In.
    rewrite Forall_forall in Ho. rewrite (has_status_split _ l (Ho l Hl)).
    destruct (has_status (objects w) Active l); simpl; [left|right];
      split; try done; intros [_ ?]; done.
Qed.

(** A computation has one result. *)
Lemma same_result {A} (m : option (unit * A)) (a b : A) :
  m = Some (tt, a) -> m = Some (tt, b) -> a = b.
Proof. intros -> [= ->]. reflexivity. Qed.

Lemma lists_partition_the_snapshot_witness :
  holds stale_lists [1%positive; 2%positive]
  /\ In (ListListener active) (listeners stale_lists)
  /\ In (ListListener finished) (listeners stale_lists)
  /\ assignedProjects (activeProjectLists stale_lists) = []
  /\ assignedProjects (finishedProjectLists stale_lists) = []
  /\ exists w',
       notifyListeners stale_lists = Some (tt, w')
       /\ assignedProjects (activeProjectLists w') = [2%positive]
       /\ assignedProjects (finishedProjectLists w') = [1%positive]
       /\ (assignedProjects (activeProjectLists w')
             ++ assignedProjects (finishedProjectLists w')
           ≡ₚ [1%positive; 2%positive]).
Proof.
  assert (Hw : holds stale_lists [1%positive; 2%positive]).
  { split; [vm_compute; reflexivity|].
    constructor; [eexists; vm_compute; reflexivity|].
    constructor; [eexists; vm_compute; reflexivity|constructor]. }
  assert (Ha : In (ListListener active) (listeners stale_lists))
    by (vm_compute; auto).
  assert (Hf : In (ListListener finished) (listeners stale_lists))
    by (vm_compute; auto).
  split; [exact Hw|]. split; [exact Ha|]. split; [exact Hf|].
  split; [vm_compute; reflexivity|]. split; [vm_compute; reflexivity|].
  destruct (lists_partition_the_snapshot stale_lists [1%positive; 2%positive]
              Hw Ha Hf)
    as (w' & args & Hrun & _ & _ & Eact & Efin & Hp & _).
  assert (Hc : notifyListeners stale_lists
               = Some (tt, default stale_lists (exec notifyListeners stale_lists)))
    by (vm_compute; reflexivity).
  pose proof (same_result _ _ _ Hrun Hc) as E.
  exists w'. split; [exact Hrun|]. split; [|split; [|exact Hp]].
  - rewrite Eact, E. vm_compute. reflexivity.
  - rewrite Efin, E. vm_compute. reflexivity.
Defined.

(** ** moveProject *)

Lemma find_id_reads w ps projectId :
  Forall (fun l => is_Some (objects w !! l)) ps ->
  find_of ps (fun prj => p <- readObject prj ;; ret (bool_decide (id p = projectId))) w
  = Some (List.find (has_id (objects w) projectId) ps, w).
Proof.
  intros Ho. apply find_of_reads. eapply Forall_impl; [exact Ho|].
  intros l [p Hp]. unfold bind, readObject, has_id. by rewrite Hp.
Qed.

Lemma find_none_iff objs ps projectId :
  List.find (has_id objs projectId) ps = None
  <-> forall l p, l ∈ ps -> objs !! l = Some p -> id p <> projectId.
Proof.
  split.
  - intros H l p Hl%list_elem_of_In Hp E.
    pose proof (find_none _ _ H l Hl) as Hn.
    unfold has_id in Hn. rewrite Hp in Hn. by case_bool_decide.
  - intros H. destruct (List.find _ ps) as [l|] eqn:E; [|done].
    apply find_some in E as [Hl%list_elem_of_In Hi].
    unfold has_id in Hi. destruct (objs !! l) as [p|] eqn:Hp; [|done].
    case_bool_decide; [|done]. by destruct (H l p).
Qed.

Lemma holds_set_objects w ps l p :
  holds w ps -> holds (set_objects (insert l p) w) ps.
Proof.
  intros [Hs Ho]. split; [exact Hs|].
  eapply Forall_impl; [exact Ho|]. intros l' [q Hq]. cbn.
  destruct (decide (l' = l)) as [->|Hne].
  - rewrite lookup_insert_eq. eauto.
  - rewrite lookup_insert_ne; eauto.
Qed.

(** The world in which [moveProject] starts its notification loop. *)
Lemma moveProject_run w ps projectId newStatus :
  holds w ps ->
  moveProject projectId newStatus w =
    match List.find (has_id (objects w) projectId) ps with
    | Some project =>
        match objects w !! project with
        | Some p =>
            if bool_decide (status p = newStatus) then Some (tt, w)
            else
              let w0 := set_objects
                          (insert project
                             (mkProject (id p) (title p) (description p)
                                        (people p) newStatus)) w in
              Some (tt, fold_left (notified ps) (listeners w) w0)
        | None => None
        end
    | None => Some (tt, w)
    end.
Proof.
  intros Hw. pose proof Hw as [Hs Ho]. unfold store in Hs.
  unfold moveProject, bind at 1 2 3, get, readArray. rewrite Hs.
  rewrite (find_id_reads w ps projectId Ho).
  destruct (List.find _ ps) as [project|]; [|done].
  unfold bind at 1, readObject.
  destruct (objects w !! project) as [p|] eqn:Hp; [|done].
  case_bool_decide; [done|].
  unfold bind, writeObject. rewrite Hp.
  exact (notifyListeners_run _ ps (holds_set_objects w ps project _ Hw)).
Qed.

(** C2. On a store that holds [ps], when the project that [moveProject]
    locates by the id -- the first of [ps] with that id -- has a status
    other than [newStatus], the call returns normally; that one Project
    instance now has status [newStatus] and its other fields as before,
    every other Project instance is as before, the store's array holds the
    same references, and every registered listener has been called once, in
    registration order, with an array that held the full list. *)
Theorem moveProject_changes_one_status
    (projectId : jsstring) (newStatus : ProjectStatus)
    (w : World) (ps : list loc) (project : loc) (p : Project) :
  holds w ps ->
  List.find (has_id (objects w) projectId) ps = Some project ->
  objects w !! project = Some p ->
  status p <> newStatus ->
  exists w' args,
    moveProject projectId newStatus w = Some (tt, w')
    /\ objects w' !! project
       = Some (mkProject (id p) (title p) (description p) (people p) newStatus)
    /\ (forall l, l <> project -> objects w' !! l = objects w !! l)
    /\ store w' = Some ps
    /\ length args = length (listeners w)
    /\ calls w' = calls w ++ zip_with (fun l a => mkCall l a ps) (listeners w) args.
Proof.
  intros Hw Hfind Hp Hne.
  set (p' := mkProject (id p) (title p) (description p) (people p) newStatus).
  pose proof (holds_set_objects w ps project p' Hw) as [Hs0 _].
  destruct (calls_fold ps (listeners w) (set_objects (insert project p') w))
    as (args & Hc & Ha).
  destruct (same_outside_lists_fold ps (listeners w)
              (set_objects (insert project p') w)) as (Eo & Ep & _).
  exists (fold_left (notified ps) (listeners w)
            (set_objects (insert project p') w)), args. split.
  { rewrite (moveProject_run w ps projectId newStatus Hw), Hfind, Hp.
    by rewrite bool_decide_eq_false_2. }
  unfold store in *. rewrite Eo, Ep. repeat split.
  - cbn. apply lookup_insert_eq.
  - intros l Hl. cbn. by apply lookup_insert_ne.
  - rewrite arrays_fold_old; [exact Hs0|]. rewrite Hs0. eauto.
  - symmetry. eapply Forall2_length, Ha.
  - exact Hc.
Qed.

(** C3. On a store that holds [ps], when no project of the store has the
    id, or when the project located by the id already has status
    [newStatus], [moveProject] returns normally and leaves the world as it
    was: the same array, the same Project instances, and no call of a
    listener. *)
Theorem moveProject_no_op
    (projectId : jsstring) (newStatus : ProjectStatus) (w : World) (ps : list loc) :
  holds w ps ->
  (forall l p, l ∈ ps -> objects w !! l = Some p -> id p <> projectId)
  \/ (exists project p,
        List.find (has_id (objects w) projectId) ps = Some project
        /\ objects w !! project = Some p /\ status p = newStatus) ->
  moveProject projectId newStatus w = Some (tt, w).
Proof.
  intros Hw H. rewrite (moveProject_run w ps projectId newStatus Hw).
  destruct H as [H|(project & p & -> & -> & Hs)].
  - apply find_none_iff in H. by rewrite H.
  - by rewrite bool_decide_eq_true_2.
Qed.

Lemma moveProject_changes_one_status_witness :
  holds one_project [1%positive]
  /\ List.find (has_id (objects one_project) (str "0.5")) [1%positive]
     = Some 1%positive
  /\ objects one_project !! 1%positive = Some build_site
  /\ status build_site <> Finished
  /\ exists w',
       dropHandler finished (str "0.5") one_project = Some (tt, w')
       /\ objects w' !! 1%positive
          = Some (mkProject (str "0.5") (str "Build site") (str "Company site")
                            (Num.of_nat 3) Finished)
       /\ store w' = Some [1%positive]
       /\ length (calls w') = 4.
Proof.
  assert (Hw : holds one_project [1%positive]).
  { split; [vm_compute; reflexivity|].
    constructor; [|constructor]. exists build_site. vm_compute. reflexivity. }
  assert (Hf : List.find (has_id (objects one_project) (str "0.5")) [1%positive]
               = Some 1%positive) by (vm_compute; reflexivity).
  assert (Hp : objects one_project !! 1%positive = Some build_site)
    by (vm_compute; reflexivity).
  assert (Hn : status build_site <> Finished) by discriminate.
  split; [exact Hw|]. split; [exact Hf|]. split; [exact Hp|]. split; [exact Hn|].
  destruct (moveProject_changes_one_status (str "0.5") Finished one_project
              [1%positive] 1%positive build_site Hw Hf Hp Hn)
    as (w' & args & Hrun & Ho & _ & Hs & Hl & Hc).
  exists w'. split; [exact Hrun|]. split; [exact Ho|]. split; [exact Hs|].
  rewrite Hc, length_app, length_zip_with, Hl. reflexivity.
Defined.

Lemma moveProject_no_op_witness :
  holds one_project [1%positive]
  /\ (exists project p,
        List.find (has_id (objects one_project) (str "0.5")) [1%positive]
        = Some project
        /\ objects one_project !! project = Some p /\ status p = Active)
  /\ dropHandler active (str "0.5") one_project = Some (tt, one_project).
Proof.
  assert (Hw : holds one_project [1%positive]).
  { split; [vm_compute; reflexivity|].
    constructor; [|constructor]. exists build_site. vm_compute. reflexivity. }
  assert (Hs : exists project p,
             List.find (has_id (objects one_project) (str "0.5")) [1%positive]
             = Some project
             /\ objects one_project !! project = Some p /\ status p = Active).
  { exists 1%positive, build_site. repeat split; vm_compute; reflexivity. }
  split; [exact Hw|]. split; [exact Hs|].
  exact (moveProject_no_op (str "0.5") Active one_project [1%positive] Hw
           (or_intror Hs)).
Defined.

(** ** ProjectInput *)

Lemma gatherUserInput_run w :
  gatherUserInput w =
    if input_valid w
    then Some (Some (titleInputElement w, descriptionInputElement w,
                     Num.of_string (peopleInputElement w)), w)
    else Some (None,
               set_alerts (fun shown => shown ++ [str "Invalid Input, please try again!"]) w).
Proof.
  unfold gatherUserInput, input_valid, bind at 1, get.
  destruct (validate (titleValidatable _)),
           (validate (descriptionValidatable _)),
           (validate (peopleValidatable _)); reflexivity.
Qed.

(** C5. When one of the three validations fails on the fields of the form,
    [submitHandler] returns normally and all it has done is to show the
    alert: the store's array and the Project instances are as before, no
    listener has been called, nothing has been drawn from [Math.random],
    and the three fields still hold what was typed. *)
Theorem invalid_submission_rejected (w : World) :
  validate (titleValidatable (titleInputElement w)) = false
  \/ validate (descriptionValidatable (descriptionInputElement w)) = false
  \/ validate (peopleValidatable (peopleInputElement w)) = false ->
  exists w',
    submitHandler w = Some (tt, w')
    /\ w' = set_alerts (fun shown => shown ++ [str "Invalid Input, please try again!"]) w
    /\ alerts w' = alerts w ++ [str "Invalid Input, please try again!"]
    /\ store w' = store w
    /\ arrays w' = arrays w
    /\ objects w' = objects w
    /\ calls w' = calls w
    /\ drawn w' = drawn w
    /\ titleInputElement w' = titleInputElement w
    /\ descriptionInputElement w' = descriptionInputElement w
    /\ peopleInputElement w' = peopleInputElement w.
Proof.
  intros H.
  assert (Hv : input_valid w = false).
  { unfold input_valid. destruct H as [->|[->| ->]];
      rewrite ?andb_false_r; reflexivity. }
  eexists. split.
  - unfold submitHandler, bind. rewrite gatherUserInput_run, Hv. reflexivity.
  - repeat split.
Qed.

Lemma invalid_submission_rejected_witness :
  let w := set_inputs (str "Title") (str "abcd") (str "3") one_project in
  validate (descriptionValidatable (descriptionInputElement w)) = false
  /\ exists w',
       submitHandler w = Some (tt, w')
       /\ alerts w' = [str "Invalid Input, please try again!"]
       /\ store w' = Some [1%positive]
       /\ length (calls w') = 2
       /\ descriptionInputElement w' = str "abcd".
Proof.
  intros w.
  assert (Hd : validate (descriptionValidatable (descriptionInputElement w)) = false)
    by (vm_compute; reflexivity).
  split; [exact Hd|].
  destruct (invalid_submission_rejected w (or_intror (or_introl Hd)))
    as (w' & Hrun & _ & Ha & Hs & _ & _ & Hc & _ & _ & Hi & _).
  exists w'. split; [exact Hrun|].
  rewrite Ha, Hs, Hc, Hi. repeat split; vm_compute; reflexivity.
Defined.

Lemma submitHandler_run w ps :
  holds w ps ->
  input_valid w = true ->
  submitHandler w =
    Some (tt,
          set_inputs [] [] []
            (set_console
               (fun lines => lines ++ [(titleInputElement w, descriptionInputElement w,
                                        Num.of_string (peopleInputElement w))])
               (fold_left (notified (ps ++ [fresh (dom (objects w))])) (listeners w)
                  (added (titleInputElement w) (descriptionInputElement w)
                         (Num.of_string (peopleInputElement w)) ps w)))).
Proof.
  intros Hw Hv. unfold submitHandler, bind at 1.
  rewrite gatherUserInput_run, Hv. unfold bind at 1.
  by rewrite (addProjects_run _ _ _ w ps Hw).
Qed.

(** A number that is at least 1 is greater than 0. *)
Lemma one_le_positive x :
  Num.le (Num.of_nat 1) x = true -> Num.lt (S754_zero false) x = true.
Proof.
  change (Num.of_nat 1) with (S754_finite false 4503599627370496 (-52)).
  by destruct x as [s|[]| |[] m e].
Qed.

Lemma people_in_range s :
  validate (peopleValidatable s) = true ->
  Num.le (Num.of_nat 1) (Num.of_string s) = true
  /\ Num.le (Num.of_string s) (Num.of_nat 5) = true.
Proof.
  unfold validate. rewrite check_max_iff, check_min_iff.
  intros [[_ Hmin] Hmax].
  split; [exact (Hmin _ _ eq_refl eq_refl)|exact (Hmax _ _ eq_refl eq_refl)].
Qed.

(** C8, as the code has it. When the three validations pass on the fields
    of the form, [submitHandler] returns normally and has appended one
    Project instance to the store: its title and description are the texts
    typed, its people is the number that the text of the people field
    denotes, a number from 1 to 5 and so greater than 0 (whether or not it
    is an integer), and its status is Active. *)
Theorem accepted_submission_people (w : World) (ps : list loc) :
  holds w ps ->
  validate (titleValidatable (titleInputElement w)) = true ->
  validate (descriptionValidatable (descriptionInputElement w)) = true ->
  validate (peopleValidatable (peopleInputElement w)) = true ->
  exists w' project prj,
    submitHandler w = Some (tt, w')
    /\ objects w !! project = None
    /\ store w' = Some (ps ++ [project])
    /\ objects w' !! project = Some prj
    /\ prj = mkProject (Num.to_string (random w (drawn w)))
                       (titleInputElement w) (descriptionInputElement w)
                       (Num.of_string (peopleInputElement w)) Active
    /\ Num.le (Num.of_nat 1) (people prj) = true
    /\ Num.le (people prj) (Num.of_nat 5) = true
    /\ Num.lt (S754_zero false) (people prj) = true
    /\ (status prj = Active \/ status prj = Finished).
Proof.
  intros Hw Ht Hd Hp.
  assert (Hv : input_valid w = true) by (unfold input_valid; by rewrite Ht, Hd, Hp).
  destruct (people_in_range _ Hp) as [H1 H5].
  pose proof (holds_added (titleInputElement w) (descriptionInputElement w)
                (Num.of_string (peopleInputElement w)) w ps Hw) as [Hs0 _].
  destruct (same_outside_lists_fold (ps ++ [fresh (dom (objects w))]) (listeners w)
              (added (titleInputElement w) (descriptionInputElement w)
                     (Num.of_string (peopleInputElement w)) ps w)) as (Eo & Ep & _).
  eexists _, (fresh (dom (objects w))), _.
  split; [exact (submitHandler_run w ps Hw Hv)|].
  split; [apply fresh_object_unused|].
  unfold store in *. cbn [arrays objects projects set_inputs set_console].
  rewrite Eo, Ep. split.
  { rewrite arrays_fold_old; [exact Hs0|]. rewrite Hs0. eauto. }
  split; [cbn; apply lookup_insert_eq|].
  split; [reflexivity|]. cbn [people status].
  repeat split; auto using one_le_positive.
Qed.

Lemma accepted_submission_people_witness :
  let w := set_inputs (str "Second") (str "Another one") (str "2") one_project in
  holds w [1%positive]
  /\ validate (titleValidatable (titleInputElement w)) = true
  /\ validate (descriptionValidatable (descriptionInputElement w)) = true
  /\ validate (peopleValidatable (peopleInputElement w)) = true
  /\ exists w' project prj,
       submitHandler w = Some (tt, w')
       /\ store w' = Some [1%positive; project]
       /\ objects w' !! project = Some prj
       /\ people prj = Num.of_nat 2
       /\ Num.lt (S754_zero false) (people prj) = true.
Proof.
  intros w.
  assert (Hw : holds w [1%positive]).
  { split; [vm_compute; reflexivity|].
    constructor; [|constructor]. exists build_site. vm_compute. reflexivity. }
  assert (Ht : validate (titleValidatable (titleInputElement w)) = true)
    by (vm_compute; reflexivity).
  assert (Hd : validate (descriptionValidatable (descriptionInputElement w)) = true)
    by (vm_compute; reflexivity).
  assert (Hp : validate (peopleValidatable (peopleInputElement w)) = true)
    by (vm_compute; reflexivity).
  split; [exact Hw|]. split; [exact Ht|]. split; [exact Hd|]. split; [exact Hp|].
  destruct (accepted_submission_people w [1%positive] Hw Ht Hd Hp)
    as (w' & project & prj & Hrun & _ & Hs & Ho & E & _ & _ & Hpos & _).
  exists w', project, prj.
  split; [exact Hrun|]. split; [exact Hs|]. split; [exact Ho|].
  split; [|exact Hpos].
  rewrite E. vm_compute. reflexivity.
Defined.

(** C8, as stated, fails: a submission with 1.5 in the people field passes
    the three validations and puts a project in the store whose people is
    1.5, which is not an integer. *)
Lemma fractional_people_accepted :
  let w := set_inputs (str "Title") (str "valid desc") (str "1.5")
                      (start (fun _ => half)) in
  input_valid w = true
  /\ exists w' project prj,
       submitHandler w = Some (tt, w')
       /\ store w' = Some [project]
       /\ objects w' !! project = Some prj
       /\ people prj = Num.of_decimal false 15 (-1)
       /\ Num.is_integer (people prj) = false.
Proof.
  intros w. split; [vm_compute; reflexivity|].
  exists (default w (exec submitHandler w)), 1%positive,
    (mkProject (str "0.5") (str "Title") (str "valid desc")
               (Num.of_decimal false 15 (-1)) Active).
  split; [vm_compute; reflexivity|]. split; [vm_compute; reflexivity|].
  split; [vm_compute; reflexivity|]. split; vm_compute; reflexivity.
Qed.

(** ** The ids of the store *)

Lemma holds_fold ps ls : forall w,
  holds w ps -> holds (fold_left (notified ps) ls w) ps.
Proof.
  induction ls as [|l ls IH]; intros w Hw; simpl; [done|].
  by apply IH, holds_notified.
Qed.

(** What one [addProjects] makes of the store and of its ids. *)
Lemma addProjects_next title description people w ps old :
  holds w ps ->
  ids w = Some old ->
  exists w',
    addProjects title description people w = Some (tt, w')
    /\ holds w' (ps ++ [fresh (dom (objects w))])
    /\ ids w' = Some (old ++ [Num.to_string (random w (drawn w))])
    /\ random w' = random w
    /\ drawn w' = S (drawn w).
Proof.
  intros Hw Hids.
  pose proof (holds_added title description people w ps Hw) as H0.
  pose proof (holds_fold _ (listeners w) _ H0) as H1.
  destruct (same_outside_lists_fold (ps ++ [fresh (dom (objects w))]) (listeners w)
              (added title description people ps w))
    as (Eo & _ & _ & _ & _ & _ & _ & _ & Er & Ed).
  eexists. split; [exact (addProjects_run title description people w ps Hw)|].
  split; [exact H1|]. split; [|by split].
  unfold ids in *. destruct H1 as [-> _], Hw as [Hs _]. rewrite Hs in Hids.
  rewrite Eo. cbn [objects added set_arrays set_objects set_drawn].
  apply mapM_Some, Forall2_app.
  - apply mapM_Some in Hids. eapply Forall2_impl; [exact Hids|].
    intros l i Hl. rewrite lookup_insert_ne; [done|].
    intros <-. by rewrite fresh_object_unused in Hl.
  - constructor; [|constructor]. by rewrite lookup_insert_eq.
Qed.

Lemma generated_next w w' n :
  random w' = random w -> drawn w' = S (drawn w) ->
  generated w (S n) = Num.to_string (random w (drawn w)) :: generated w' n.
Proof. intros Er Ed. unfold generated. by rewrite Er, Ed. Qed.

(** The ids after a sequence of submissions: the ids before, followed by
    the strings of the numbers drawn, one per submission. *)
Lemma addAll_ids subs : forall w ps old,
  holds w ps ->
  ids w = Some old ->
  exists w' ps',
    addAll subs w = Some (tt, w')
    /\ holds w' ps'
    /\ length ps' = (length ps + length subs)%nat
    /\ ids w' = Some (old ++ generated w (length subs)).
Proof.
  induction subs as [|[[t d] p] subs IH]; intros w ps old Hw Hids.
  - exists w, ps. repeat split; try apply Hw.
    + simpl. lia.
    + unfold generated. simpl. by rewrite app_nil_r.
  - destruct (addProjects_next t d p w ps old Hw Hids)
      as (w1 & Hrun & H1 & Hids1 & Er & Ed).
    destruct (IH w1 _ _ H1 Hids1) as (w' & ps' & Hrun' & H' & Hlen & Hids').
    exists w', ps'. split.
    { unfold addAll. simpl. unfold bind. rewrite Hrun. exact Hrun'. }
    split; [exact H'|]. split.
    { rewrite Hlen, length_app. simpl. lia. }
    rewrite Hids', <- app_assoc. simpl length.
    by rewrite (generated_next w w1 _ Er Ed).
Qed.

(** C6, as the code has it. After any sequence of submissions to the store
    -- whatever [Math.random] returns -- the ids of the store are the ids
    before, followed by the strings of the numbers that [Math.random]
    returned, one per submission: so they are pairwise distinct exactly
    when the earlier ids and those strings are. *)
Theorem ids_distinct_iff_draws_distinct
    (subs : list (jsstring * jsstring * number)) (w : World)
    (ps : list loc) (old : list jsstring) :
  holds w ps ->
  ids w = Some old ->
  exists w' new,
    addAll subs w = Some (tt, w')
    /\ ids w' = Some new
    /\ new = old ++ generated w (length subs)
    /\ (NoDup new <-> NoDup (old ++ generated w (length subs))).
Proof.
  intros Hw Hids.
  destruct (addAll_ids subs w ps old Hw Hids) as (w' & ps' & Hrun & _ & _ & H).
  by exists w', (old ++ generated w (length subs)).
Qed.

Lemma ids_distinct_iff_draws_distinct_witness :
  holds (start tenths) []
  /\ ids (start tenths) = Some []
  /\ (exists w',
        addAll two_submissions (start tenths) = Some (tt, w')
        /\ ids w' = Some [str "0.1"; str "0.2"]
        /\ exists new, ids w' = Some new /\ NoDup new)
  /\ holds (start (fun _ => half)) []
  /\ ids (start (fun _ => half)) = Some []
  /\ (exists w',
        addAll two_submissions (start (fun _ => half)) = Some (tt, w')
        /\ exists new, ids w' = Some new /\ ~ NoDup new).
Proof.
  assert (Hw : holds (start tenths) []) by (split; [reflexivity|constructor]).
  assert (Hi : ids (start tenths) = Some []) by reflexivity.
  assert (Hw2 : holds (start (fun _ => half)) [])
    by (split; [reflexivity|constructor]).
  assert (Hi2 : ids (start (fun _ => half)) = Some []) by reflexivity.
  split; [exact Hw|]. split; [exact Hi|]. split; [|split; [exact Hw2|split; [exact Hi2|]]].
  - destruct (ids_distinct_iff_draws_distinct two_submissions (start tenths)
                [] [] Hw Hi) as (w' & new & Hrun & Hids & E & Hiff).
    exists w'. split; [exact Hrun|]. split.
    + rewrite Hids, E. vm_compute. reflexivity.
    + exists new. split; [exact Hids|]. apply Hiff.
      apply (bool_decide_unpack _). vm_compute. exact I.
  - destruct (ids_distinct_iff_draws_distinct two_submissions
                (start (fun _ => half)) [] [] Hw2 Hi2)
      as (w' & new & Hrun & Hids & E & Hiff).
    exists w'. split; [exact Hrun|]. exists new. split; [exact Hids|].
    intros Hn%Hiff. revert Hn. apply (bool_decide_unpack _). vm_compute. exact I.
Defined.

(** C6, as stated, fails: when [Math.random] returns 0.5 twice, two
    submissions leave two projects with the id "0.5" in the store. *)
Lemma ids_collide :
  exists w',
    addAll two_submissions (start (fun _ => half)) = Some (tt, w')
    /\ ids w' = Some [str "0.5"; str "0.5"]
    /\ ~ NoDup [str "0.5"; str "0.5"].
Proof.
  exists (default (start (fun _ => half))
            (exec (addAll two_submissions) (start (fun _ => half)))).
  split; [vm_compute; reflexivity|]. split; [vm_compute; reflexivity|].
  intros H. apply NoDup_cons_1_1 in H. apply H. by left.
Qed.

(** The same isolation for the notification of [moveProject]: the store's
    array holds the same references after the listeners have run, each on
    an array of its own. *)
Lemma moveProject_listeners_get_a_copy
    (projectId : jsstring) (newStatus : ProjectStatus)
    (w : World) (ps : list loc) (project : loc) (p : Project) :
  holds w ps ->
  List.find (has_id (objects w) projectId) ps = Some project ->
  objects w !! project = Some p ->
  status p <> newStatus ->
  exists w' args,
    moveProject projectId newStatus w = Some (tt, w')
    /\ calls w' = calls w ++ zip_with (fun l a => mkCall l a ps) (listeners w) args
    /\ Forall2 (fun l a =>
                  a <> projects w /\ arrays w !! a = None
                  /\ arrays w' !! a = Some (left_in (objects w') l ps))
               (listeners w) args
    /\ store w' = Some ps.
Proof.
  intros Hw Hfind Hp Hne.
  set (p' := mkProject (id p) (title p) (description p) (people p) newStatus).
  pose proof (holds_set_objects w ps project p' Hw) as [Hs0 _].
  destruct (calls_fold ps (listeners w) (set_objects (insert project p') w))
    as (args & Hc & Ha).
  destruct (same_outside_lists_fold ps (listeners w)
              (set_objects (insert project p') w)) as (Eo & Ep & _).
  exists (fold_left (notified ps) (listeners w)
            (set_objects (insert project p') w)), args. split.
  { rewrite (moveProject_run w ps projectId newStatus Hw), Hfind, Hp.
    by rewrite bool_decide_eq_false_2. }
  unfold store in *. rewrite Eo, Ep. split; [exact Hc|]. split.
  - eapply Forall2_impl; [exact Ha|]. intros l a [Hn Hl]. cbn in Hn.
    split; [|by split]. intros ->. cbn in Hs0. congruence.
  - rewrite arrays_fold_old; [exact Hs0|]. rewrite Hs0. eauto.
Qed.

(** ** The scenarios of the specification *)

(** add("Build site", "Company site", 3): the active list shows one row,
    "Build site", and the finished list none. *)
Example scenario_add :
  exists w,
    exec (submit "Build site" "Company site" "3") (start (fun _ => half)) = Some w
    /\ rows (activeProjectLists w) = [str "Build site"]
    /\ rows (finishedProjectLists w) = []
    /\ alerts w = [].
Proof.
  eexists. split; [vm_compute; reflexivity|].
  split; [reflexivity|]. split; reflexivity.
Qed.

(** Then the row is dropped on the finished list. *)
Example scenario_move :
  exists w,
    exec (submit "Build site" "Company site" "3" ;;
          dropHandler finished (str "0.5")) (start (fun _ => half)) = Some w
    /\ rows (activeProjectLists w) = []
    /\ rows (finishedProjectLists w) = [str "Build site"].
Proof.
  eexists. split; [vm_compute; reflexivity|]. split; reflexivity.
Qed.

(** An empty title, a description of four characters and six people are
    each refused: the store stays empty and one alert is shown. *)
Example scenario_rejected :
  Forall (fun '(t, d, p) =>
            exists w, exec (submit t d p) (start (fun _ => half)) = Some w
                      /\ store w = Some [] /\ length (alerts w) = 1%nat)
         [("", "desc", "3"); ("Title", "abcd", "3"); ("Title", "valid desc", "6")]%string.
Proof.
  repeat constructor; eexists; (split; [vm_compute; reflexivity|]);
    split; reflexivity.
Qed.

(** * Further properties of the sources *)

(** ** Validation of the three fields *)

Lemma trim_visible_iff (s : jsstring) :
  trim s <> [] <-> exists c, c ∈ s /\ is_ws c = false.
Proof.
  split.
  - intros Hne. destruct (existsb (fun c => negb (is_ws c)) s) eqn:E.
    + apply existsb_exists in E as (c & Hc%list_elem_of_In & Hw).
      exists c. split; [done|]. by apply negb_true_iff.
    + destruct Hne. apply trim_blank, forallb_forall. intros c Hc.
      destruct (is_ws c) eqn:Hw; [done|].
      assert (existsb (fun c => negb (is_ws c)) s = true); [|congruence].
      apply existsb_exists. exists c. by rewrite Hw.
  - intros (c & Hc%list_elem_of_In & Hw). apply trim_keeps, existsb_exists.
    exists c. by rewrite Hw.
Qed.

(** X7. A title is accepted exactly when it shows a character that is not white
    space; the empty title and the titles of blanks are refused. *)
Theorem title_accepted_iff_visible (s : jsstring) :
  validate (titleValidatable s) = true <-> exists c, c ∈ s /\ is_ws c = false.
Proof.
  rewrite <- trim_visible_iff.
  change (validate (titleValidatable s))
    with (negb (length (trim s) =? 0)%nat).
  rewrite negb_true_iff, Nat.eqb_neq. by destruct (trim s).
Qed.

Lemma below_five n :
  (n < 5)%nat -> Num.ge (Num.of_nat n) (Num.of_nat 5) = false.
Proof.
  intros H. do 5 (destruct n as [|n]; [vm_compute; reflexivity|]). lia.
Qed.

(** X8. A description of fewer than five code units is refused, whatever its
    characters (and so is a blank one, whatever its length). *)
Theorem short_description_rejected (s : jsstring) :
  (length s < 5)%nat \/ forallb is_ws s = true ->
  validate (descriptionValidatable s) = false.
Proof.
  change (validate (descriptionValidatable s))
    with (negb (length (trim s) =? 0)%nat
          && Num.ge (Num.of_nat (length s)) (Num.of_nat 5)).
  intros [H|H].
  - rewrite (below_five _ H). apply andb_false_r.
  - by rewrite (trim_blank s H).
Qed.

Lemma short_description_rejected_witness :
  ((length (str "abcd") < 5)%nat \/ forallb is_ws (str "abcd") = true)
  /\ validate (descriptionValidatable (str "abcd")) = false.
Proof.
  assert (H : (length (str "abcd") < 5)%nat \/ forallb is_ws (str "abcd") = true)
    by (left; simpl; lia).
  split; [exact H|]. exact (short_description_rejected (str "abcd") H).
Defined.

Lemma nan_compares_false n :
  Num.ge S754_nan n = false /\ Num.le S754_nan n = false.
Proof. by destruct n as [|[]| |[]]. Qed.

(** X10. A value that is not a number (NaN) fails every [min] and every [max]:
    a Validatable with such a value and one of the two bounds is invalid. *)
Theorem nan_fails_bounds (v : Validatable) :
  value v = VNumber S754_nan ->
  is_Some (min v) \/ is_Some (max v) ->
  validate v = false.
Proof.
  intros Hv H. apply not_true_is_false. unfold validate.
  rewrite check_max_iff, check_min_iff. intros [[_ Hmin] Hmax].
  destruct H as [[n Hn]|[n Hn]].
  - specialize (Hmin n _ Hn Hv). by rewrite (proj1 (nan_compares_false n)) in Hmin.
  - specialize (Hmax n _ Hn Hv). by rewrite (proj2 (nan_compares_false n)) in Hmax.
Qed.

Lemma nan_fails_bounds_witness :
  value (peopleValidatable (str "three")) = VNumber S754_nan
  /\ (is_Some (min (peopleValidatable (str "three")))
      \/ is_Some (max (peopleValidatable (str "three"))))
  /\ validate (peopleValidatable (str "three")) = false.
Proof.
  assert (Hv : value (peopleValidatable (str "three")) = VNumber S754_nan)
    by (vm_compute; reflexivity).
  assert (Hb : is_Some (min (peopleValidatable (str "three")))
               \/ is_Some (max (peopleValidatable (str "three"))))
    by (left; eexists; reflexivity).
  split; [exact Hv|]. split; [exact Hb|].
  exact (nan_fails_bounds _ Hv Hb).
Defined.

(** X9. The people field left blank is refused, and not by the required check,
    which passes on it as on every number: a blank text denotes 0, which is
    below the minimum. *)
Theorem blank_people_rejected (s : jsstring) :
  forallb is_ws s = true ->
  check_required (peopleValidatable s) true = true
  /\ Num.of_string s = S754_zero false
  /\ validate (peopleValidatable s) = false.
Proof.
  intros H.
  assert (E : Num.of_string s = S754_zero false).
  { unfold Num.of_string. by rewrite (trim_blank s H). }
  split; [|split; [exact E|]].
  - apply check_required_true; [done|]. simpl.
    apply trim_keeps, to_string_visible.
  - apply not_true_is_false. unfold validate.
    rewrite check_max_iff, check_min_iff. intros [[_ Hmin] _].
    specialize (Hmin _ _ eq_refl eq_refl). rewrite E in Hmin.
    vm_compute in Hmin. discriminate.
Qed.

Lemma blank_people_rejected_witness :
  forallb is_ws (str "  ") = true
  /\ validate (peopleValidatable (str "  ")) = false.
Proof.
  assert (H : forallb is_ws (str "  ") = true) by reflexivity.
  split; [exact H|]. exact (proj2 (proj2 (blank_people_rejected _ H))).
Defined.

(** X11. Asking for less never refuses more: a value that passes [validate]
    under some constraints passes it under any part of them. *)
Theorem validate_weaker (v v' : Validatable) :
  weaker v v' -> validate v' = true -> validate v = true.
Proof.
  intros (Hv & Hr & Hminl & Hmaxl & Hmin & Hmax). unfold validate.
  rewrite !check_max_iff, !check_min_iff, !check_maxLength_iff,
          !check_minLength_iff, !check_required_iff.
  unfold required_passes, minLength_passes, maxLength_passes,
    min_passes, max_passes.
  rewrite Hv. intros [[[[[_ H1] H2] H3] H4] H5].
  repeat split; eauto.
Qed.

Lemma validate_weaker_witness :
  weaker (titleValidatable (str "valid desc"))
         (descriptionValidatable (str "valid desc"))
  /\ validate (descriptionValidatable (str "valid desc")) = true
  /\ validate (titleValidatable (str "valid desc")) = true.
Proof.
  assert (Hw : weaker (titleValidatable (str "valid desc"))
                      (descriptionValidatable (str "valid desc")))
    by (repeat split; intros; (reflexivity || discriminate)).
  assert (Hv : validate (descriptionValidatable (str "valid desc")) = true)
    by (vm_compute; reflexivity).
  split; [exact Hw|]. split; [exact Hv|].
  exact (validate_weaker _ _ Hw Hv).
Defined.

(** ** The store in use *)

(** Everything [addProjects] does, in one statement. *)
Lemma addProjects_effect title description people w ps :
  holds w ps ->
  let project := fresh (dom (objects w)) in
  let p := mkProject (Num.to_string (random w (drawn w)))
                     title description people Active in
  exists w',
    addProjects title description people w = Some (tt, w')
    /\ holds w' (ps ++ [project])
    /\ objects w' = <[project := p]> (objects w)
    /\ listeners w' = listeners w
    /\ titleInputElement w' = titleInputElement w
    /\ descriptionInputElement w' = descriptionInputElement w
    /\ peopleInputElement w' = peopleInputElement w
    /\ alerts w' = alerts w /\ console w' = console w
    /\ random w' = random w /\ drawn w' = S (drawn w)
    /\ forall type,
         list_of type w' =
           if registered type (listeners w)
           then shown (objects w') type (ps ++ [project])
           else list_of type w.
Proof.
  intros Hw. cbv zeta.
  pose proof (holds_added title description people w ps Hw) as H0.
  pose proof (holds_fold _ (listeners w) _ H0) as H1.
  destruct (same_outside_lists_fold (ps ++ [fresh (dom (objects w))]) (listeners w)
              (added title description people ps w))
    as (Eo & Ep & El & E1 & E2 & E3 & E4 & E5 & E6 & E7).
  eexists. split; [exact (addProjects_run title description people w ps Hw)|].
  split; [exact H1|]. repeat (split; [assumption|]).
  intros type. rewrite Eo.
  exact (list_of_fold (ps ++ [fresh (dom (objects w))]) (listeners w) type
           (added title description people ps w)).
Qed.

Lemma projects_of_grown w w' ps old project p :
  holds w ps -> projects_of w = Some old ->
  objects w !! project = None ->
  holds w' (ps ++ [project]) ->
  objects w' = <[project := p]> (objects w) ->
  projects_of w' = Some (old ++ [p]).
Proof.
  intros [Hs _] Hold Hfresh [Hs' _] Ho. unfold projects_of in *.
  rewrite Hs in Hold. rewrite Hs', Ho.
  apply mapM_Some, Forall2_app.
  - apply mapM_Some in Hold. eapply Forall2_impl; [exact Hold|].
    intros l q Hl. rewrite lookup_insert_ne; [done|]. intros <-. congruence.
  - constructor; [|constructor]. apply lookup_insert_eq.
Qed.

Lemma invalid_submission_effect w :
  validate (titleValidatable (titleInputElement w)) = false
  \/ validate (descriptionValidatable (descriptionInputElement w)) = false
  \/ validate (peopleValidatable (peopleInputElement w)) = false ->
  submitHandler w
  = Some (tt, set_alerts (fun shown => shown ++ [str "Invalid Input, please try again!"]) w)
  /\ input_valid w = false.
Proof.
  intros H.
  assert (Hv : input_valid w = false).
  { unfold input_valid. destruct H as [->|[->| ->]];
      rewrite ?andb_false_r; reflexivity. }
  split; [|exact Hv].
  unfold submitHandler, bind. by rewrite gatherUserInput_run, Hv.
Qed.

(** What one submission of the form does, accepted or not. *)
Lemma submitHandler_effect w ps old :
  holds w ps -> projects_of w = Some old ->
  exists w' ps',
    submitHandler w = Some (tt, w') /\ holds w' ps'
    /\ random w' = random w /\ listeners w' = listeners w
    /\ (forall l q, objects w !! l = Some q -> objects w' !! l = Some q)
    /\ if input_valid w
       then ps' = ps ++ [fresh (dom (objects w))]
            /\ projects_of w' =
                 Some (old ++ [mkProject (Num.to_string (random w (drawn w)))
                                 (titleInputElement w) (descriptionInputElement w)
                                 (Num.of_string (peopleInputElement w)) Active])
            /\ drawn w' = S (drawn w) /\ alerts w' = alerts w
            /\ console w' = console w
                 ++ [(titleInputElement w, descriptionInputElement w,
                      Num.of_string (peopleInputElement w))]
            /\ titleInputElement w' = [] /\ descriptionInputElement w' = []
            /\ peopleInputElement w' = []
       else ps' = ps /\ projects_of w' = Some old /\ drawn w' = drawn w
            /\ alerts w' = alerts w ++ [str "Invalid Input, please try again!"]
            /\ console w' = console w
            /\ titleInputElement w' = titleInputElement w
            /\ descriptionInputElement w' = descriptionInputElement w
            /\ peopleInputElement w' = peopleInputElement w.
Proof.
  intros Hw Hold. destruct (input_valid w) eqn:Hv.
  - destruct (addProjects_effect (titleInputElement w) (descriptionInputElement w)
                (Num.of_string (peopleInputElement w)) w ps Hw)
      as (w1 & Hrun & H1 & Eo & El & _ & _ & _ & Ea & Ec & Er & Ed & _).
    exists (set_inputs [] [] [] (set_console
              (fun lines => lines ++ [(titleInputElement w, descriptionInputElement w,
                                       Num.of_string (peopleInputElement w))]) w1)),
      (ps ++ [fresh (dom (objects w))]).
    split.
    { unfold submitHandler, bind at 1. rewrite gatherUserInput_run, Hv.
      unfold bind at 1. by rewrite Hrun. }
    split; [exact H1|]. split; [exact Er|]. split; [exact El|]. split.
    { intros l q Hl. cbn. rewrite Eo, lookup_insert_ne; [done|].
      intros <-. by rewrite fresh_object_unused in Hl. }
    split; [done|]. split.
    { eapply (projects_of_grown w _ ps old); eauto using fresh_object_unused. }
    cbn. rewrite Ec. by repeat split.
  - exists (set_alerts (fun shown => shown ++ [str "Invalid Input, please try again!"]) w), ps.
    split.
    { unfold submitHandler, bind. by rewrite gatherUserInput_run, Hv. }
    split; [exact Hw|]. do 3 (split; [done|]).
    split; [done|]. split; [exact Hold|]. by repeat split.
Qed.

(** X3. An accepted submission empties the three fields of the form, writes
    the title, the description and the number of people to the console,
    shows no alert and draws one number from [Math.random]. *)
Theorem accepted_submission_clears_form (w : World) (ps : list loc) :
  holds w ps ->
  input_valid w = true ->
  exists w',
    submitHandler w = Some (tt, w')
    /\ titleInputElement w' = [] /\ descriptionInputElement w' = []
    /\ peopleInputElement w' = []
    /\ console w' = console w
         ++ [(titleInputElement w, descriptionInputElement w,
              Num.of_string (peopleInputElement w))]
    /\ alerts w' = alerts w
    /\ drawn w' = S (drawn w).
Proof.
  intros Hw Hv.
  assert (Hold : is_Some (projects_of w)).
  { destruct Hw as [Hs Ho]. unfold projects_of. rewrite Hs.
    apply mapM_is_Some. exact Ho. }
  destruct Hold as [old Hold].
  destruct (submitHandler_effect w ps old Hw Hold)
    as (w' & ps' & Hrun & _ & _ & _ & _ & H). rewrite Hv in H.
  destruct H as (_ & _ & Ed & Ea & Ec & E1 & E2 & E3).
  exists w'. by repeat (split; [assumption|]).
Qed.

Lemma holds_projects_of w ps : holds w ps -> is_Some (projects_of w).
Proof.
  intros [Hs Ho]. unfold projects_of. rewrite Hs. by apply mapM_is_Some.
Qed.

(** X4. Submitting twice in a row does not add twice: the first, accepted,
    submission empties the form, and the second is refused with the alert. *)
Theorem second_submission_rejected (w : World) (ps : list loc) :
  holds w ps ->
  input_valid w = true ->
  exists w1 w2 project,
    submitHandler w = Some (tt, w1)
    /\ submitHandler w1 = Some (tt, w2)
    /\ store w1 = Some (ps ++ [project])
    /\ store w2 = Some (ps ++ [project])
    /\ objects w2 = objects w1
    /\ calls w2 = calls w1
    /\ alerts w2 = alerts w ++ [str "Invalid Input, please try again!"].
Proof.
  intros Hw Hv. destruct (holds_projects_of w ps Hw) as [old Hold].
  destruct (submitHandler_effect w ps old Hw Hold)
    as (w1 & ps1 & Hrun1 & Hw1 & _ & _ & _ & H). rewrite Hv in H.
  destruct H as (-> & Hold1 & _ & Ea & _ & Et & _ & _).
  assert (Hv1 : validate (titleValidatable (titleInputElement w1)) = false)
    by by rewrite Et.
  destruct (invalid_submission_effect w1 (or_introl Hv1)) as (Hrun2 & E2).
  exists w1, (set_alerts (fun shown => shown ++ [str "Invalid Input, please try again!"]) w1),
    (fresh (dom (objects w))).
  split; [exact Hrun1|]. split; [exact Hrun2|].
  split; [apply Hw1|]. split; [apply Hw1|]. split; [done|]. split; [done|].
  cbn. by rewrite Ea.
Qed.



(** ** What never happens *)

Lemma perform_safe a w ps :
  holds w ps ->
  exists w' more,
    perform a w = Some (tt, w') /\ holds w' (ps ++ more)
    /\ forall l q, objects w !! l = Some q -> objects w' !! l = Some q.
Proof.
  intros Hw. destruct a as [t d p| |listener|t d p]; simpl.
  - exists (set_inputs t d p w), []. rewrite app_nil_r.
    split; [done|]. split; [exact Hw|]. done.
  - destruct (holds_projects_of w ps Hw) as [old Hold].
    destruct (submitHandler_effect w ps old Hw Hold)
      as (w' & ps' & Hrun & Hw' & _ & _ & Ho & H).
    destruct (input_valid w).
    + destruct H as (-> & _). by exists w', [fresh (dom (objects w))].
    + destruct H as (-> & _). exists w', []. by rewrite app_nil_r.
  - exists (set_listeners (fun ls => ls ++ [listener]) w), [].
    rewrite app_nil_r. split; [done|]. split; [exact Hw|]. done.
  - destruct (addProjects_effect t d p w ps Hw) as (w' & Hrun & Hw' & Eo & _).
    exists w', [fresh (dom (objects w))]. split; [exact Hrun|].
    split; [exact Hw'|]. intros l q Hl. rewrite Eo, lookup_insert_ne; [done|].
    intros <-. by rewrite fresh_object_unused in Hl.
Qed.

(** X2. Whatever is typed, submitted, registered as a listener or added, in any
    order and number, no method throws; the store's array keeps the
    references it had, in place, and only grows at its end; every reference
    it holds is to a Project instance; and no Project instance is changed
    or removed. *)
Theorem performAll_safe (actions : list Action) (w : World) (ps : list loc) :
  holds w ps ->
  exists w' more,
    performAll actions w = Some (tt, w')
    /\ holds w' (ps ++ more)
    /\ forall l q, objects w !! l = Some q -> objects w' !! l = Some q.
Proof.
  revert w ps. induction actions as [|a actions IH]; intros w ps Hw.
  - exists w, []. rewrite app_nil_r. split; [done|]. split; [exact Hw|]. done.
  - destruct (perform_safe a w ps Hw) as (w1 & more1 & Hrun1 & Hw1 & Ho1).
    destruct (IH w1 _ Hw1) as (w' & more & Hrun & Hw' & Ho).
    exists w', (more1 ++ more). split.
    { unfold performAll. simpl. unfold bind. rewrite Hrun1. exact Hrun. }
    rewrite app_assoc. split; [exact Hw'|]. auto.
Qed.

(** ** Listeners and lists *)

(** X5. A listener registered with [addListener] is called by the next
    [addProjects], once, after the listeners registered before it, and it
    is given the full list in an array that is not the store's. *)
Theorem registered_listener_is_called_last
    (listener : Listener) (title description : jsstring) (people : number)
    (w : World) (ps : list loc) :
  holds w ps ->
  exists w' project args a,
    (addListener listener ;; addProjects title description people) w
      = Some (tt, w')
    /\ listeners w' = listeners w ++ [listener]
    /\ store w' = Some (ps ++ [project])
    /\ length args = length (listeners w)
    /\ calls w' = calls w
         ++ zip_with (fun l a => mkCall l a (ps ++ [project])) (listeners w) args
         ++ [mkCall listener a (ps ++ [project])]
    /\ a <> projects w'.
Proof.
  intros Hw. set (w1 := set_listeners (fun ls => ls ++ [listener]) w).
  assert (Hw1 : holds w1 ps) by exact Hw.
  pose proof (holds_added title description people w1 ps Hw1) as H0.
  pose proof (holds_fold _ (listeners w1) _ H0) as [Hs Ho].
  destruct (calls_fold (ps ++ [fresh (dom (objects w))]) (listeners w1)
              (added title description people ps w1)) as (args' & Hc & Ha).
  destruct (same_outside_lists_fold (ps ++ [fresh (dom (objects w))]) (listeners w1)
              (added title description people ps w1)) as (_ & Ep & El & _).
  change (listeners w1) with (listeners w ++ [listener]) in *.
  change (objects w1) with (objects w) in *.
  apply Forall2_app_inv_l in Ha as (args & last & Hargs & Hlast & ->).
  apply Forall2_cons_inv_l in Hlast as (a & rest & [Hn _] & Hrest & ->).
  apply Forall2_nil_inv_l in Hrest as ->.
  exists (fold_left (notified (ps ++ [fresh (dom (objects w))]))
            (listeners w ++ [listener]) (added title description people ps w1)),
    (fresh (dom (objects w))), args, a. split.
  { unfold bind, addListener, modify. fold w1.
    exact (addProjects_run title description people w1 ps Hw1). }
  split; [exact El|]. split; [exact Hs|].
  split; [symmetry; eapply Forall2_length, Hargs|]. split.
  - rewrite Hc, zip_with_app; [done|]. eapply Forall2_length, Hargs.
  - rewrite Ep. intros ->. destruct H0 as [H0 _]. unfold store in H0.
    cbn in Hn, H0. congruence.
Qed.

Lemma has_status_inserted objs project p s l :
  objs !! project = None -> is_Some (objs !! l) ->
  has_status (<[project := p]> objs) s l = has_status objs s l.
Proof.
  intros Hf [q Hq]. unfold has_status. rewrite lookup_insert_ne; [done|].
  intros <-. congruence.
Qed.

Lemma title_at_inserted objs project p l :
  objs !! project = None -> is_Some (objs !! l) ->
  title_at (<[project := p]> objs) l = title_at objs l.
Proof.
  intros Hf [q Hq]. unfold title_at. rewrite lookup_insert_ne; [done|].
  intros <-. congruence.
Qed.

Lemma shown_grown objs project p type ps :
  objs !! project = None ->
  Forall (fun l => is_Some (objs !! l)) ps ->
  shown (<[project := p]> objs) type (ps ++ [project]) =
    let old := shown objs type ps in
    if bool_decide (status p = type_status type)
    then mkProjectList (assignedProjects old ++ [project]) (rows old ++ [title p])
    else old.
Proof.
  intros Hf Ho. unfold shown. rewrite List.filter_app. simpl.
  assert (E : List.filter (has_status (<[project:=p]> objs) (type_status type)) ps
              = List.filter (has_status objs (type_status type)) ps).
  { apply List.filter_ext_in. intros l Hl%list_elem_of_In.
    rewrite Forall_forall in Ho. by apply has_status_inserted, Ho. }
  assert (Et : forall ks, Forall (fun l => is_Some (objs !! l)) ks ->
                 title_at (<[project:=p]> objs) <$> ks = title_at objs <$> ks).
  { intros ks Hks. apply Forall_fmap_ext. eapply Forall_impl; [exact Hks|].
    intros l Hl. by apply title_at_inserted. }
  assert (Hs : has_status (<[project:=p]> objs) (type_status type) project
               = bool_decide (status p = type_status type)).
  { unfold has_status. by rewrite lookup_insert_eq. }
  assert (Ht : title_at (<[project:=p]> objs) project = title p).
  { unfold title_at. by rewrite lookup_insert_eq. }
  rewrite E, Hs. case_bool_decide; simpl.
  - rewrite fmap_app, Et by by apply filter_subset. simpl. by rewrite Ht.
  - rewrite app_nil_r, Et by by apply filter_subset. done.
Qed.

(** X6. With the listeners of both lists registered, [addProjects] leaves the
    active list with the Active projects that the store had, followed by
    the new one, and with one row per project bearing its title, the new
    title last; the finished list holds and shows the Finished projects of
    the store, and not the new one. *)
Theorem new_project_is_listed_active
    (title description : jsstring) (people : number) (w : World) (ps : list loc) :
  holds w ps ->
  In (ListListener active) (listeners w) ->
  In (ListListener finished) (listeners w) ->
  exists w' project,
    addProjects title description people w = Some (tt, w')
    /\ store w' = Some (ps ++ [project])
    /\ assignedProjects (activeProjectLists w')
       = List.filter (has_status (objects w) Active) ps ++ [project]
    /\ rows (activeProjectLists w')
       = (title_at (objects w) <$> List.filter (has_status (objects w) Active) ps)
         ++ [title]
    /\ assignedProjects (finishedProjectLists w')
       = List.filter (has_status (objects w) Finished) ps
    /\ rows (finishedProjectLists w')
       = title_at (objects w) <$> List.filter (has_status (objects w) Finished) ps.
Proof.
  intros Hw Ha%registered_In Hf%registered_In.
  destruct (addProjects_effect title description people w ps Hw)
    as (w' & Hrun & Hw' & Eo & _ & _ & _ & _ & _ & _ & _ & _ & Hl).
  pose proof (Hl active) as Hact. pose proof (Hl finished) as Hfin.
  rewrite Ha in Hact. rewrite Hf in Hfin. simpl in Hact, Hfin.
  rewrite Eo in Hact, Hfin.
  rewrite shown_grown in Hact, Hfin
    by (apply fresh_object_unused || apply Hw).
  simpl in Hact, Hfin.
  exists w', (fresh (dom (objects w))). split; [exact Hrun|].
  split; [apply Hw'|]. rewrite Hact, Hfin. done.
Qed.

(** ** The drag target *)

Lemma classList_remove_absent token cl : token ∉ classList_remove token cl.
Proof.
  unfold classList_remove. rewrite list_elem_of_In, filter_In.
  intros [_ H]. by rewrite bool_decide_eq_true_2 in H.
Qed.

Lemma classList_remove_id token cl :
  token ∉ cl -> classList_remove token cl = cl.
Proof.
  intros H. unfold classList_remove. induction cl as [|t cl IH]; simpl; [done|].
  apply not_elem_of_cons in H as [Hne Hcl].
  rewrite bool_decide_eq_false_2 by done. simpl. by rewrite IH.
Qed.

Lemma classList_remove_add token cl :
  token ∉ cl -> classList_remove token (classList_add token cl) = cl.
Proof.
  intros H. unfold classList_add. rewrite bool_decide_eq_false_2 by done.
  unfold classList_remove. rewrite List.filter_app. simpl.
  rewrite bool_decide_eq_true_2 by done. simpl. rewrite app_nil_r.
  by apply classList_remove_id.
Qed.

(** X12. Whatever is dragged over the list, once the drag leaves, the class list
    of the [ul] is what it was before: the mark is gone and the other
    classes are in place. *)
Theorem dragLeave_restores_classList (event : DragEvent) (cl : list jsstring) :
  str "droppable" ∉ cl ->
  dragLeaveHandler (snd (dragOverHandler event cl)) = cl.
Proof.
  intros H. unfold dragLeaveHandler, dragOverHandler.
  destruct (dataTransfer event) as [[|t ts]|]; simpl;
    try by apply classList_remove_id.
  case_bool_decide; simpl.
  - by apply classList_remove_add.
  - by apply classList_remove_id.
Qed.

Lemma dragLeave_restores_classList_witness :
  (str "droppable" ∉ [str "projects"])
  /\ dragLeaveHandler
       (snd (dragOverHandler (mkDragEvent (Some [str "text/plain"]) false)
                             [str "projects"]))
     = [str "projects"].
Proof.
  assert (H : str "droppable" ∉ [str "projects"]).
  { intros H%list_elem_of_singleton. discriminate H. }
  split; [exact H|]. exact (dragLeave_restores_classList _ _ H).
Defined.

(** X13. A drag over the list permits the drop and marks the list exactly when
    the first type of the data dragged is text/plain; and the events that
    keep coming while the drag hovers change nothing more: the mark is
    there once. *)
Theorem dragOver_marks_once (event : DragEvent) (cl : list jsstring) :
  let plain := match dataTransfer event with
               | Some (t :: _) => bool_decide (t = str "text/plain")
               | _ => false
               end in
  let '(event', cl') := dragOverHandler event cl in
  defaultPrevented event' = plain || defaultPrevented event
  /\ (str "droppable" ∈ cl' <-> plain = true \/ str "droppable" ∈ cl)
  /\ (NoDup cl -> NoDup cl')
  /\ dragOverHandler event' cl' = (event', cl').
Proof.
  unfold dragOverHandler.
  destruct (dataTransfer event) as [[|t ts]|] eqn:Hd; simpl;
    try (rewrite Hd; by intuition).
  case_bool_decide as Ht; simpl.
  - rewrite bool_decide_eq_true_2 by done. unfold classList_add.
    case_bool_decide as Hm.
    + rewrite bool_decide_eq_true_2 by done. by intuition.
    + repeat split; try by intuition.
      * intros _. apply elem_of_app. right. by left.
      * intros Hn. apply NoDup_app. repeat split; [done| |apply NoDup_singleton].
        intros x Hx ->%list_elem_of_singleton. done.
      * rewrite bool_decide_eq_true_2; [done|].
        apply elem_of_app. right. by left.
  - rewrite Hd. simpl. rewrite bool_decide_eq_false_2 by done. by intuition.
Qed.

(** ** The singleton *)

(** X14. [getInstance] constructs a ProjectState the first time only: it
    returns the instance it finds, or a new one that it records, and a
    second call returns the same instance and constructs nothing. *)
Theorem getInstance_once (st : Statics) :
  let '(i, st1) := getInstance st in
  instance st1 = Some i
  /\ (forall j, instance st = Some j -> i = j /\ st1 = st)
  /\ (instance st = None ->
        (i ∉ constructed st) /\ constructed st1 = {[ i ]} ∪ constructed st)
  /\ getInstance st1 = (i, st1).
Proof.
  unfold getInstance. destruct st as [[i|] c]; simpl.
  - repeat split; intros; simplify_eq; done.
  - split; [done|]. split; [done|]. split; [|done].
    intros _. split; [apply is_fresh|done].
Qed.

(** ** Drag and drop (with [moveProject] as the specification describes it) *)

Lemma has_id_moved objs project p newStatus i l :
  objs !! project = Some p ->
  has_id (<[project := mkProject (id p) (title p) (description p) (people p)
                                 newStatus]> objs) i l
  = has_id objs i l.
Proof.
  intros Hp. unfold has_id. destruct (decide (l = project)) as [->|Hne].
  - by rewrite lookup_insert_eq, Hp.
  - by rewrite lookup_insert_ne.
Qed.

Lemma find_ext_all {A} (f g : A -> bool) xs :
  (forall x, f x = g x) -> List.find f xs = List.find g xs.
Proof.
  intros H. induction xs as [|x xs IH]; simpl; [done|]. by rewrite H, IH.
Qed.

(** X15. A drop on a list of the id of a project that is in the other list: the
    project located gets the status of the list, is then assigned to that
    list and to it alone, as every project of the store is assigned by its
    status; and dropping the same id on the same list again changes
    nothing and calls no listener. *)
Theorem drop_moves_project_to_list
    (type : ListType) (prjId : jsstring)
    (w : World) (ps : list loc) (project : loc) (p : Project) :
  holds w ps ->
  In (ListListener active) (listeners w) ->
  In (ListListener finished) (listeners w) ->
  List.find (has_id (objects w) prjId) ps = Some project ->
  objects w !! project = Some p ->
  status p <> type_status type ->
  exists w',
    dropHandler type prjId w = Some (tt, w')
    /\ objects w' !! project
       = Some (mkProject (id p) (title p) (description p) (people p)
                         (type_status type))
    /\ (forall t, assignedProjects (list_of t w')
                  = List.filter (has_status (objects w') (type_status t)) ps)
    /\ project ∈ assignedProjects (list_of type w')
    /\ (project ∉ assignedProjects (list_of (other type) w'))
    /\ dropHandler type prjId w' = Some (tt, w').
Proof.
  intros Hw Ha%registered_In Hf%registered_In Hfind Hp Hne.
  set (p' := mkProject (id p) (title p) (description p) (people p) (type_status type)).
  set (w0 := set_objects (insert project p') w).
  pose proof (holds_set_objects w ps project p' Hw) as Hw0.
  pose proof (holds_fold ps (listeners w) w0 Hw0) as Hw'.
  destruct (same_outside_lists_fold ps (listeners w) w0) as (Eo & _ & El & _).
  assert (Hin : project ∈ ps).
  { apply list_elem_of_In. eapply find_some, Hfind. }
  assert (Hrun : dropHandler type prjId w
                 = Some (tt, fold_left (notified ps) (listeners w) w0)).
  { unfold dropHandler.
    change (match type with active => Active | finished => Finished end)
      with (type_status type).
    rewrite (moveProject_run w ps prjId _ Hw), Hfind, Hp.
    by rewrite bool_decide_eq_false_2. }
  assert (Hl : forall t, assignedProjects
                 (list_of t (fold_left (notified ps) (listeners w) w0))
               = List.filter (has_status (objects w0) (type_status t)) ps).
  { intros t. rewrite (list_of_fold ps (listeners w) t w0).
    change (listeners w0) with (listeners w).
    by destruct t; rewrite ?Ha, ?Hf. }
  assert (Hst : forall s, has_status (objects w0) s project
                          = bool_decide (type_status type = s)).
  { intros s. unfold has_status. cbn. by rewrite lookup_insert_eq. }
  exists (fold_left (notified ps) (listeners w) w0).
  split; [exact Hrun|]. rewrite Eo. split.
  { cbn. by rewrite lookup_insert_eq. }
  split; [exact Hl|]. split; [|split].
  - rewrite Hl, list_elem_of_In, filter_In, <- list_elem_of_In, Hst.
    split; [done|]. by apply bool_decide_eq_true.
  - rewrite Hl, list_elem_of_In, filter_In, Hst. intros [_ H].
    apply bool_decide_eq_true in H. by destruct type.
  - unfold dropHandler.
    change (match type with active => Active | finished => Finished end)
      with (type_status type).
    rewrite (moveProject_run _ ps prjId _ Hw'), Eo. subst w0 p'.
    cbn [objects set_objects].
    rewrite (find_ext_all _ _ ps
               (fun l => has_id_moved (objects w) project p (type_status type)
                           prjId l Hp)).
    rewrite Hfind, lookup_insert_eq. by rewrite bool_decide_eq_true_2.
Qed.

(** ** Instances *)

Ltac holds_one_project :=
  split;
  [ vm_compute; reflexivity
  | constructor; [exists build_site; vm_compute; reflexivity | constructor] ].

Lemma accepted_submission_clears_form_witness :
  holds second_form [1%positive]
  /\ input_valid second_form = true
  /\ exists w',
       submitHandler second_form = Some (tt, w')
       /\ titleInputElement w' = [] /\ descriptionInputElement w' = []
       /\ peopleInputElement w' = []
       /\ console w' = [(str "Second", str "Another one", Num.of_nat 2)]
       /\ alerts w' = [].
Proof.
  assert (Hw : holds second_form [1%positive]) by holds_one_project.
  assert (Hv : input_valid second_form = true) by (vm_compute; reflexivity).
  split; [exact Hw|]. split; [exact Hv|].
  destruct (accepted_submission_clears_form second_form [1%positive] Hw Hv)
    as (w' & Hrun & E1 & E2 & E3 & Ec & Ea & _).
  exists w'. split; [exact Hrun|]. split; [exact E1|]. split; [exact E2|].
  split; [exact E3|]. split.
  - rewrite Ec. vm_compute. reflexivity.
  - rewrite Ea. reflexivity.
Defined.

Lemma second_submission_rejected_witness :
  holds second_form [1%positive]
  /\ input_valid second_form = true
  /\ exists w1 w2 project,
       submitHandler second_form = Some (tt, w1)
       /\ submitHandler w1 = Some (tt, w2)
       /\ store w2 = Some [1%positive; project]
       /\ alerts w2 = [str "Invalid Input, please try again!"].
Proof.
  assert (Hw : holds second_form [1%positive]) by holds_one_project.
  assert (Hv : input_valid second_form = true) by (vm_compute; reflexivity).
  split; [exact Hw|]. split; [exact Hv|].
  destruct (second_submission_rejected second_form [1%positive] Hw Hv)
    as (w1 & w2 & project & H1 & H2 & _ & Hs & _ & _ & Ha).
  exists w1, w2, project. split; [exact H1|]. split; [exact H2|].
  split; [exact Hs|]. rewrite Ha. reflexivity.
Defined.


Lemma performAll_safe_witness :
  holds (start tenths) []
  /\ exists w' more,
       performAll session (start tenths) = Some (tt, w')
       /\ holds w' ([] ++ more).
Proof.
  assert (Hw : holds (start tenths) []) by (split; [reflexivity|constructor]).
  split; [exact Hw|].
  destruct (performAll_safe session (start tenths) [] Hw)
    as (w' & more & Hrun & Hw' & _).
  exists w', more. split; [exact Hrun|exact Hw'].
Defined.

Lemma registered_listener_is_called_last_witness :
  holds one_project [1%positive]
  /\ exists w' project a,
       (addListener vandal ;;
        addProjects (str "Ship it") (str "Release day") (Num.of_nat 2)) one_project
       = Some (tt, w')
       /\ listeners w' = [ListListener active; ListListener finished; vandal]
       /\ last (calls w') = Some (mkCall vandal a [1%positive; project])
       /\ store w' = Some [1%positive; project].
Proof.
  assert (Hw : holds one_project [1%positive]) by holds_one_project.
  split; [exact Hw|].
  destruct (registered_listener_is_called_last vandal
              (str "Ship it") (str "Release day") (Num.of_nat 2)
              one_project [1%positive] Hw)
    as (w' & project & args & a & Hrun & El & Hs & _ & Hc & _).
  exists w', project, a. split; [exact Hrun|]. split; [exact El|].
  split; [|exact Hs].
  rewrite Hc, !app_assoc. apply last_snoc.
Defined.

Lemma new_project_is_listed_active_witness :
  holds one_project [1%positive]
  /\ In (ListListener active) (listeners one_project)
  /\ In (ListListener finished) (listeners one_project)
  /\ exists w' project,
       addProjects (str "Ship it") (str "Release day") (Num.of_nat 2) one_project
       = Some (tt, w')
       /\ assignedProjects (activeProjectLists w') = [1%positive; project]
       /\ rows (activeProjectLists w') = [str "Build site"; str "Ship it"]
       /\ rows (finishedProjectLists w') = [].
Proof.
  assert (Hw : holds one_project [1%positive]) by holds_one_project.
  assert (Ha : In (ListListener active) (listeners one_project))
    by (vm_compute; auto).
  assert (Hf : In (ListListener finished) (listeners one_project))
    by (vm_compute; auto).
  split; [exact Hw|]. split; [exact Ha|]. split; [exact Hf|].
  destruct (new_project_is_listed_active
              (str "Ship it") (str "Release day") (Num.of_nat 2)
              one_project [1%positive] Hw Ha Hf)
    as (w' & project & Hrun & _ & E1 & E2 & _ & E4).
  exists w', project. split; [exact Hrun|]. split.
  { rewrite E1. vm_compute. reflexivity. }
  split.
  { rewrite E2. vm_compute. reflexivity. }
  rewrite E4. vm_compute. reflexivity.
Defined.

Lemma drop_moves_project_to_list_witness :
  holds one_project [1%positive]
  /\ In (ListListener active) (listeners one_project)
  /\ In (ListListener finished) (listeners one_project)
  /\ List.find (has_id (objects one_project) (str "0.5")) [1%positive]
     = Some 1%positive
  /\ objects one_project !! 1%positive = Some build_site
  /\ status build_site <> type_status finished
  /\ exists w',
       dropHandler finished (str "0.5") one_project = Some (tt, w')
       /\ assignedProjects (activeProjectLists w') = []
       /\ assignedProjects (finishedProjectLists w') = [1%positive].
Proof.
  assert (Hw : holds one_project [1%positive]) by holds_one_project.
  assert (Ha : In (ListListener active) (listeners one_project))
    by (vm_compute; auto).
  assert (Hf : In (ListListener finished) (listeners one_project))
    by (vm_compute; auto).
  assert (Hfind : List.find (has_id (objects one_project) (str "0.5")) [1%positive]
                  = Some 1%positive) by (vm_compute; reflexivity).
  assert (Hp : objects one_project !! 1%positive = Some build_site)
    by (vm_compute; reflexivity).
  assert (Hn : status build_site <> type_status finished) by (cbv; discriminate).
  split; [exact Hw|]. split; [exact Ha|]. split; [exact Hf|].
  split; [exact Hfind|]. split; [exact Hp|]. split; [exact Hn|].
  destruct (drop_moves_project_to_list finished (str "0.5") one_project
              [1%positive] 1%positive build_site Hw Ha Hf Hfind Hp Hn)
    as (w' & Hrun & Hst & Hl & _).
  exists w'. split; [exact Hrun|].
  pose proof (Hl active) as E1. pose proof (Hl finished) as E2.
  cbn [list_of type_status] in E1, E2. rewrite E1, E2.
  unfold has_status. cbn [List.filter]. rewrite Hst. split; reflexivity.
Defined.

(** X16. The people field is accepted exactly when the number that its text
    denotes is at least 1 and at most 5; the required check plays no part,
    for it passes on every number. *)
Theorem people_accepted_iff_in_range (s : jsstring) :
  validate (peopleValidatable s) = true
  <-> Num.le (Num.of_nat 1) (Num.of_string s) = true
      /\ Num.le (Num.of_string s) (Num.of_nat 5) = true.
Proof.
  split; [apply people_in_range|]. intros [H1 H5].
  assert (Hr : check_required (peopleValidatable s) true = true).
  { apply check_required_true; [done|]. simpl.
    apply trim_keeps, to_string_visible. }
  unfold validate. rewrite check_max_iff, check_min_iff. split; [split|].
  - unfold check_maxLength, check_minLength. simpl. exact Hr.
  - intros n x [= <-] [= <-]. exact H1.
  - intros n x [= <-] [= <-]. exact H5.
Qed.
